(** * Google Play review collector and insight generator

    A shallow embedding of [crawler.py] ([ScraperApp.extract_reviews],
    [run_scraper], [select_output_file]) and [doctor.py]
    ([DoctorApp.generate_insights], [call_lmstudio], [normalize_text],
    [analyze_reviews], [select_csv_file]), with the properties of its
    specification stated over it.

    Python text is a sequence of Unicode code points: [str] is [list N].
    Library routines the program calls ([re], [str.split], [int],
    [datetime.strptime], [strftime], [sorted], [requests]) are embedded
    with the behaviour their implementation gives them in CPython 3.11
    on glibc; the Unicode character database, which they consult, is a
    parameter. *)

From Stdlib Require Import String Ascii.
From Stdlib Require Import List NArith ZArith Arith Lia Bool.
From Stdlib Require Import Sorting.Sorted Sorting.Permutation.
From Stdlib Require DecimalN.
Import ListNotations.

Set Implicit Arguments.
#[local] Set Warnings "-register-all,-abstract-large-number".

(** ** Text *)

Definition str := list N.

(** An ASCII literal as code points. *)
Fixpoint lit (s : string) : str :=
  match s with
  | EmptyString => []
  | String c s' => N_of_ascii c :: lit s'
  end.

Definition str_eqb (a b : str) : bool :=
  if list_eq_dec N.eq_dec a b then true else false.

(** ** Chunking ([doctor.py], lines 72-73) *)

Module Chunking.

(** [self.chunk_size = 20] *)
Definition chunk_size : nat := 20.

(** The values [range(start, stop, step)] yields for a positive step:
    [i] is produced while [i < stop].  No more than [stop] values can
    be produced, which bounds the loop. *)
Fixpoint range_loop (fuel i stop step : nat) : list nat :=
  match fuel with
  | O => []
  | S fuel' =>
      if i <? stop then i :: range_loop fuel' (i + step) stop step else []
  end.

Definition py_range (start stop step : nat) : list nat :=
  range_loop stop start stop step.

(** [l[i:j]] for [0 <= i]; Python clamps both ends to the list. *)
Definition slice {A} (l : list A) (i j : nat) : list A :=
  firstn (j - i) (skipn i l).

(** The chunks the loop of [generate_insights] forms, in order:
    [for i in range(0, num_reviews, self.chunk_size):
         chunk = all_reviews[i:i + self.chunk_size]]. *)
Definition chunks {A} (all_reviews : list A) : list (list A) :=
  let num_reviews := length all_reviews in
  map (fun i => slice all_reviews i (i + chunk_size))
      (py_range 0 num_reviews chunk_size).

(** ceil(a / b) on naturals *)
Definition ceil_div (a b : nat) : nat := (a + (b - 1)) / b.

End Chunking.

(** ** The Unicode character database

    [re], [int], [str.split] and [str.strip] classify characters with
    the interpreter's Unicode tables.  The whitespace table is short
    and is written out; the decimal-digit and alphanumeric tables are
    the parameters of the development. *)

Class UnicodeDB := {
  (** [unicodedata.decimal]: the digit value of a code point of
      category Nd, [None] for every other code point *)
  decimal : N -> option N;
  (** [str.isalnum] of a one-character string *)
  isalnum : N -> bool
}.

(** [lo <= c <= hi], the range [lo-hi] of a character set *)
Definition in_range (lo hi c : N) : bool := ((lo <=? c) && (c <=? hi))%N.

(** [str.isspace] of one character; also the class [\s] of [re] and
    the separators of [str.split()] and [str.strip()]. *)
Definition isspace (c : N) : bool :=
  (((9 <=? c) && (c <=? 13)) || ((28 <=? c) && (c <=? 32))
  || (c =? 133) || (c =? 160) || (c =? 5760)
  || ((8192 <=? c) && (c <=? 8202)) || (c =? 8232) || (c =? 8233)
  || (c =? 8239) || (c =? 8287) || (c =? 12288))%N.

(** What the development uses of the content of the tables; each line
    is a fact of the Unicode character database. *)
Class UnicodeFacts (db : UnicodeDB) : Prop := {
  (** below U+0080 the decimal digits are 0-9, with their values *)
  decimal_ascii : forall c, (c < 128)%N ->
    decimal c = if ((48 <=? c) && (c <=? 57))%N then Some (c - 48)%N else None;
  (** no Hangul syllable is a decimal digit *)
  decimal_hangul : forall c, (0xAC00 <= c <= 0xD7A3)%N -> decimal c = None;
  (** no white space is a decimal digit *)
  decimal_space : forall c, isspace c = true -> decimal c = None;
  (** below U+0080 the alphanumerics are 0-9, A-Z and a-z *)
  isalnum_ascii : forall c, (c < 128)%N ->
    isalnum c = (((48 <=? c) && (c <=? 57)) || ((65 <=? c) && (c <=? 90))
                 || ((97 <=? c) && (c <=? 122)))%N;
  (** the Hangul syllables are letters *)
  isalnum_hangul : forall c, (0xAC00 <= c <= 0xD7A3)%N -> isalnum c = true
}.

(** [sys.int_max_str_digits], which the program leaves at its default:
    the longest run of decimal digits that [int] reads and that the
    conversion of an integer to text writes. *)
Definition int_max_str_digits : nat := 4300.

Section Text.
Context {db : UnicodeDB}.
Local Open Scope N_scope.

(** The class [\d] of a [str] pattern. *)
Definition isdecimal (c : N) : bool :=
  match decimal c with Some _ => true | None => false end.

(** The class [\w] of a [str] pattern: alphanumerics and the underscore. *)
Definition isword (c : N) : bool := isalnum c || (c =? 95).

(** [s.lstrip()], [s.rstrip()], [s.strip()] *)
Fixpoint lstrip (s : str) : str :=
  match s with
  | c :: s' => if isspace c then lstrip s' else s
  | [] => []
  end.

Definition rstrip (s : str) : str := rev (lstrip (rev s)).

Definition strip (s : str) : str := rstrip (lstrip s).

(** [s.split()]: the maximal runs of non-whitespace characters, in
    order.  [cur] is the word being scanned, last character first. *)
Fixpoint split_loop (s : str) (cur : str) : list str :=
  match s with
  | [] => match cur with [] => [] | _ => [rev cur] end
  | c :: s' =>
      if isspace c then
        match cur with
        | [] => split_loop s' []
        | _ => rev cur :: split_loop s' []
        end
      else split_loop s' (c :: cur)
  end.

Definition py_split (s : str) : list str := split_loop s [].

(** [sep.join(words)] *)
Fixpoint py_join (sep : str) (words : list str) : str :=
  match words with
  | [] => []
  | [w] => w
  | w :: ws => w ++ sep ++ py_join sep ws
  end.

(** The value of a run of decimal digits, most significant first. *)
Fixpoint digits_value (acc : N) (s : str) : option N :=
  match s with
  | [] => Some acc
  | c :: s' =>
      match decimal c with
      | Some v => digits_value (acc * 10 + v) s'
      | None => None
      end
  end.

(** [int(s)] for the texts this program passes to it, which are
    matches of [\d+] or of the day field of [strptime]: surrounding
    whitespace is ignored, the rest must be decimal digits, and there
    must be no more than [int_max_str_digits] of them, the zeros in
    front counted.  [None] is [ValueError].  (A sign and underscores,
    which [int] also reads, cannot occur in those texts.) *)
Definition py_int (s : str) : option N :=
  match strip s with
  | [] => None
  | t =>
      if (length t <=? int_max_str_digits)%nat then digits_value 0 t else None
  end.

End Text.

Local Open Scope N_scope.

(** [str(n)] for a non-negative integer *)
Fixpoint uint_digits (u : Decimal.uint) : str :=
  match u with
  | Decimal.Nil => []
  | Decimal.D0 u' => 48 :: uint_digits u'
  | Decimal.D1 u' => 49 :: uint_digits u'
  | Decimal.D2 u' => 50 :: uint_digits u'
  | Decimal.D3 u' => 51 :: uint_digits u'
  | Decimal.D4 u' => 52 :: uint_digits u'
  | Decimal.D5 u' => 53 :: uint_digits u'
  | Decimal.D6 u' => 54 :: uint_digits u'
  | Decimal.D7 u' => 55 :: uint_digits u'
  | Decimal.D8 u' => 56 :: uint_digits u'
  | Decimal.D9 u' => 57 :: uint_digits u'
  end.

Definition str_of_N (n : N) : str := uint_digits (N.to_uint n).

(** [str(z)] for an integer *)
Definition str_of_Z (z : Z) : str :=
  match z with
  | Zneg p => 45 :: str_of_N (Npos p)
  | _ => str_of_N (Z.to_N z)
  end.

(** The text of [f"{n:0{width}d}"] for a non-negative integer: its
    decimal digits, with zeros in front up to [width] characters; never
    truncated. *)
Definition format_0d (width : nat) (n : N) : str :=
  let ds := str_of_N n in
  repeat 48 (width - length ds)%nat ++ ds.

(** [f"{n:0{width}d}"]: the conversion raises [ValueError], here
    [None], for a number of more than [int_max_str_digits] digits. *)
Definition py_format_0d (width : nat) (n : N) : option str :=
  if (length (str_of_N n) <=? int_max_str_digits)%nat
  then Some (format_0d width n)
  else None.

(** Comparison of [str] values, [a < b]: lexicographic by code point. *)
Fixpoint str_ltb (a b : str) : bool :=
  match a, b with
  | [], [] => false
  | [], _ :: _ => true
  | _ :: _, [] => false
  | x :: a', y :: b' =>
      if x <? y then true else if y <? x then false else str_ltb a' b'
  end.

Local Close Scope N_scope.

(** ** Regular expressions

    The fragment of [re] the program and [strptime] use, with the
    backtracking semantics of the [re] engine: alternatives are tried
    left to right, [+] is greedy and gives characters back one at a
    time, and the first way to match the whole pattern wins. *)

Module Regex.

Local Open Scope N_scope.

Inductive regex :=
| Eps
| Chr (c : N)                 (** a literal character *)
| ChrI (c : N)                (** a lower-case letter under [re.IGNORECASE] *)
| Cls (p : N -> bool)         (** one character of a class or set *)
| Plus (p : N -> bool)        (** [class+] *)
| Cat (r1 r2 : regex)
| Alt (r1 r2 : regex)
| Group (g : nat) (r : regex) (** a capturing group *).

(** Captured groups, most recent first. *)
Definition captures := list (nat * str).

Fixpoint group (g : nat) (cs : captures) : option str :=
  match cs with
  | [] => None
  | (g', t) :: cs' => if Nat.eqb g g' then Some t else group g cs'
  end.

(** The characters a lower-case ASCII letter of a pattern matches under
    [re.IGNORECASE] in a [str] pattern: itself, its capital, and the
    characters whose simple lower-casing or case equivalence is that
    letter (dotted capital I and dotless i for [i], long s for [s], the
    Kelvin sign for [k]). *)
Definition ignorecase_eq (c x : N) : bool :=
  (x =? c) || (x =? c - 32)
  || ((c =? 105) && ((x =? 304) || (x =? 305)))
  || ((c =? 115) && (x =? 383))
  || ((c =? 107) && (x =? 8490)).

Section Match.
Context {R : Type}.

(** After one character of the class has been consumed: take more
    while possible, and on failure of the rest give them back. *)
Fixpoint plus_loop (p : N -> bool) (s : str) (k : str -> option R) : option R :=
  match s with
  | x :: s' =>
      if p x then
        match plus_loop p s' k with
        | Some r => Some r
        | None => k s
        end
      else k s
  | [] => k s
  end.

(** [rmatch r s cs k]: match [r] at the head of [s], then continue
    with [k] on the rest of the text and the groups captured so far. *)
Fixpoint rmatch (r : regex) (s : str) (cs : captures)
         (k : str -> captures -> option R) : option R :=
  match r with
  | Eps => k s cs
  | Chr c =>
      match s with
      | x :: s' => if x =? c then k s' cs else None
      | [] => None
      end
  | ChrI c =>
      match s with
      | x :: s' => if ignorecase_eq c x then k s' cs else None
      | [] => None
      end
  | Cls p =>
      match s with
      | x :: s' => if p x then k s' cs else None
      | [] => None
      end
  | Plus p =>
      match s with
      | x :: s' => if p x then plus_loop p s' (fun t => k t cs) else None
      | [] => None
      end
  | Cat r1 r2 => rmatch r1 s cs (fun t cs' => rmatch r2 t cs' k)
  | Alt r1 r2 =>
      match rmatch r1 s cs k with
      | Some x => Some x
      | None => rmatch r2 s cs k
      end
  | Group g r1 =>
      rmatch r1 s cs
        (fun t cs' => k t ((g, firstn (length s - length t)%nat s) :: cs'))
  end.
End Match.

(** A literal text, and a literal text under [re.IGNORECASE]. *)
Fixpoint text (w : str) : regex :=
  match w with
  | [] => Eps
  | c :: w' => Cat (Chr c) (text w')
  end.

Fixpoint textI (w : str) : regex :=
  match w with
  | [] => Eps
  | c :: w' => Cat (ChrI c) (textI w')
  end.

(** [re.match(r, s)]: the text left after the match and the groups. *)
Definition re_match (r : regex) (s : str) : option (str * captures) :=
  rmatch r s [] (fun t cs => Some (t, cs)).

(** [re.search(r, s)]: the match at the leftmost position that has one. *)
Fixpoint re_search (r : regex) (s : str) : option (str * captures) :=
  match re_match r s with
  | Some m => Some m
  | None =>
      match s with
      | [] => None
      | _ :: s' => re_search r s'
      end
  end.

(** [re.findall(r, s)] for a pattern without groups that matches no
    empty text: the texts of the non-overlapping matches, left to right.
    [skip] counts the characters of the last match still to be passed. *)
Fixpoint findall_loop (r : regex) (s : str) (skip : nat) : list str :=
  match s with
  | [] => []
  | _ :: s' =>
      match skip with
      | S n => findall_loop r s' n
      | O =>
          match re_match r s with
          | Some (t, _) =>
              let m := firstn (length s - length t)%nat s in
              m :: findall_loop r s' (length m - 1)%nat
          | None => findall_loop r s' 0
          end
      end
  end.

Definition re_findall (r : regex) (s : str) : list str := findall_loop r s 0.

End Regex.

(** ** The review extractor ([crawler.py], [ScraperApp.extract_reviews]) *)

Module Crawler.
Import Regex.

Local Open Scope N_scope.

(** Code that raises inside the per-review [try] is in [option]:
    [None] is the exception that [except Exception: continue] absorbs. *)
Definition obind {A B} (x : option A) (f : A -> option B) : option B :=
  match x with
  | Some a => f a
  | None => None
  end.

#[local] Notation "x <- e ;; k" := (obind e (fun x => k))
  (at level 61, e at next level, right associativity).

Fixpoint alts (rs : list regex) : regex :=
  match rs with
  | [] => Cls (fun _ => false)
  | [r] => r
  | r :: rs' => Alt r (alts rs')
  end.

Section Parsing.
Context {db : UnicodeDB}.

(** *** Ratings (lines 154-160) *)

(** [r'(\d+)개를 받았습니다'] *)
Definition RATING_KR : regex :=
  Cat (Group 1 (Plus isdecimal))
      (text [0xAC1C; 0xB97C; 32; 0xBC1B; 0xC558; 0xC2B5; 0xB2C8; 0xB2E4]).

(** [r'Rated (\d+) stars'] *)
Definition RATING_EN : regex :=
  Cat (text (lit "Rated "))
      (Cat (Group 1 (Plus isdecimal)) (text (lit " stars"))).

(** [match = re.search(...); rating = int(match.group(1)) if match else None].
    The outer [option] is the exception ([int] raising), the inner
    one the rating, [None] for the Python [None]. *)
Definition parse_rating (is_kr : bool) (aria_label : str) : option (option N) :=
  match re_search (if is_kr then RATING_KR else RATING_EN) aria_label with
  | Some (_, cs) =>
      g <- group 1 cs ;;
      n <- py_int g ;;
      Some (Some n)
  | None => Some None
  end.

(** *** Dates (lines 163-173) *)

(** The text of [f"{year:04d}-{month:02d}-{day:02d}"] *)
Definition format_ymd (y m d : N) : str :=
  format_0d 4 y ++ [45] ++ format_0d 2 m ++ [45] ++ format_0d 2 d.

(** [datetime(y, m, d).strftime("%Y-%m-%d")] as the C library under the
    interpreter (glibc) prints it: the month and the day on two digits,
    the year as it is, without zeros in front, so on fewer than four
    digits before the year 1000. *)
Definition strftime_Ymd (y m d : N) : str :=
  str_of_N y ++ [45] ++ format_0d 2 m ++ [45] ++ format_0d 2 d.

(** [calendar.month_name], lower-cased, for English month names. *)
Definition month_names : list str :=
  map lit ["january"; "february"; "march"; "april"; "may"; "june"; "july";
           "august"; "september"; "october"; "november"; "december"]%string.

(** The regular expression [_strptime] compiles from ["%B %d, %Y"],
    with [re.IGNORECASE]: the month names longest first, white space
    of the format as [\s+], and the library's patterns for [%d] and
    [%Y].  Groups 1, 2, 3 are the named groups B, d, Y. *)
Definition RE_B : regex :=
  Group 1 (alts (map (fun w => textI (lit w))
    ["september"; "february"; "november"; "december"; "january"; "october";
     "august"; "march"; "april"; "june"; "july"; "may"]%string)).

Definition RE_d : regex :=
  Group 2 (alts
    [ Cat (Chr 51) (Cls (in_range 48 49));          (* 3[0-1] *)
      Cat (Cls (in_range 49 50)) (Cls isdecimal);   (* [1-2]\d *)
      Cat (Chr 48) (Cls (in_range 49 57));          (* 0[1-9] *)
      Cls (in_range 49 57);                         (* [1-9] *)
      Cat (Chr 32) (Cls (in_range 49 57)) ]).       (* " [1-9]" *)

Definition RE_Y : regex :=
  Group 3 (Cat (Cls isdecimal) (Cat (Cls isdecimal)
            (Cat (Cls isdecimal) (Cls isdecimal)))).

Definition STRPTIME_RE : regex :=
  Cat RE_B (Cat (Plus isspace) (Cat RE_d
    (Cat (Chr 44) (Cat (Plus isspace) RE_Y)))).

(** [str.lower] of one character, for the characters group B can
    hold: the ASCII letters of the month names and the other
    characters [ignorecase_eq] admits. *)
Definition lower_char (c : N) : str :=
  if in_range 65 90 c then [c + 32]
  else if c =? 304 then [105; 775]
  else if c =? 8490 then [107]
  else [c].

Definition py_lower (s : str) : str := flat_map lower_char s.

(** [names.index(w)], counted from 1; [None] is [ValueError]. *)
Fixpoint index_from (i : N) (w : str) (names : list str) : option N :=
  match names with
  | [] => None
  | n :: names' => if str_eqb w n then Some i else index_from (i + 1) w names'
  end.

Definition is_leap (y : N) : bool :=
  (y mod 4 =? 0) && (negb (y mod 100 =? 0) || (y mod 400 =? 0)).

Definition days_in_month (y m : N) : N :=
  if m =? 2 then (if is_leap y then 29 else 28)
  else if (m =? 4) || (m =? 6) || (m =? 9) || (m =? 11) then 30
  else 31.

(** What the [datetime] constructor accepts. *)
Definition valid_date (y m d : N) : bool :=
  in_range 1 9999 y && in_range 1 12 m && in_range 1 (days_in_month y m) d.

(** [datetime.strptime(date, "%B %d, %Y")]: the whole text must match,
    and the fields must form a date. *)
Definition strptime_BdY (date : str) : option (N * N * N) :=
  match re_match STRPTIME_RE date with
  | Some ([], cs) =>
      Y <- group 3 cs ;;
      year <- py_int Y ;;
      B <- group 1 cs ;;
      month <- index_from 1 (py_lower B) month_names ;;
      d <- group 2 cs ;;
      day <- py_int d ;;
      if valid_date year month day then Some (year, month, day) else None
  | _ => None
  end.

(** The normalisation of the date text, by locale. *)
Definition parse_date (is_kr : bool) (date : str) : option str :=
  if is_kr then
    let nums := re_findall (Plus isdecimal) date in
    match nums with
    | year :: month :: day :: _ =>
        (* f"{int(year):04d}-{int(month):02d}-{int(day):02d}" *)
        y <- py_int year ;;
        fy <- py_format_0d 4 y ;;
        m <- py_int month ;;
        fm <- py_format_0d 2 m ;;
        d <- py_int day ;;
        fd <- py_format_0d 2 d ;;
        Some (fy ++ [45] ++ fm ++ [45] ++ fd)
    | _ => Some date
    end
  else
    match strptime_BdY date with
    | Some (y, m, d) => Some (strftime_Ymd y m d)
    | None => None
    end.

(** *** One review element *)

(** What the scraper reads of a review element of the page.  A field
    is [None] where [find_element] finds nothing and raises; the
    [aria-label] attribute itself may be missing ([get_attribute]
    returns the Python [None], on which [re.search] raises). *)
Record meta_elem := {
  aria_label : option (option str);  (* div[role="img"], its aria-label *)
  date_text : option str             (* class bp9Aid *)
}.

Record review_elem := {
  body_text : option str;            (* class h3YV2d *)
  meta : option meta_elem            (* class Jx4nYe *)
}.

(** A row of [extracted]: the dict with keys review, rating, date. *)
Record row := {
  review : str;
  rating : option N;
  date : str
}.

(** The body of the [for review in reviews] loop. *)
Definition extract_one (is_kr : bool) (e : review_elem) : option row :=
  t <- body_text e ;;
  let review_text := strip t in
  mt <- meta e ;;
  al <- aria_label mt ;;
  label <- al ;;
  rating <- parse_rating is_kr label ;;
  dt <- date_text mt ;;
  date <- parse_date is_kr (strip dt) ;;
  Some {| review := review_text; rating := rating; date := date |}.

(** [sorted(extracted, key=lambda x: x['date'])]: the stable ascending
    sort, which compares keys with [<] only.  An element goes in
    front of the first later element whose key is not smaller. *)
Fixpoint insert_by_date (x : row) (l : list row) : list row :=
  match l with
  | [] => [x]
  | y :: l' =>
      if str_ltb (date y) (date x) then y :: insert_by_date x l'
      else x :: y :: l'
  end.

Definition sorted_by_date (l : list row) : list row :=
  fold_right insert_by_date [] l.

(** The rows of [extracted] before sorting. *)
Fixpoint extracted (is_kr : bool) (reviews : list review_elem) : list row :=
  match reviews with
  | [] => []
  | e :: es =>
      match extract_one is_kr e with
      | Some r => r :: extracted is_kr es
      | None => extracted is_kr es
      end
  end.

(** The page after the tab presses: the navigation icons found and
    the review elements. *)
Record page := {
  arrow_icons : nat;
  reviews : list review_elem
}.

(** [extract_reviews]: the rows handed to [writer.writerows], in
    order; [None] when the navigation fails and nothing is written. *)
Definition extract_reviews (is_kr : bool) (pg : page) : option (list row) :=
  if (3 <=? arrow_icons pg)%nat
  then Some (sorted_by_date (extracted is_kr (reviews pg)))
  else None.

(** The records of the CSV file: the header, then one record per row
    with the fields in the order review, rating, date; an absent
    rating is written as the empty field. *)
Definition csv_record (r : row) : list str :=
  [ review r;
    match rating r with Some n => str_of_N n | None => [] end;
    date r ].

Definition csv_file (rows : list row) : list (list str) :=
  map lit ["review"; "rating"; "date"]%string :: map csv_record rows.

End Parsing.

End Crawler.


(** ** The scraper run ([crawler.py], [run_scraper] and the steps of
    [extract_reviews] around the extraction) *)

Module Scraper.
Import Crawler.

(** An exception, as the text [str(e)] that the error dialog shows. *)
Definition exn := str.

Inductive dialog_kind := Information | Warning | Critical.

(** The calls a run makes on the browser, on the output file and on
    the dialogs, in the order in which it makes them.  (The pauses of
    [time.sleep] are left out; the reads of the review elements are in
    [Crawler.extracted].) *)
Inductive event :=
| StartChrome                               (* webdriver.Chrome(...) *)
| DriverGet (link : str)                    (* driver.get(link) *)
| WaitArrows                                (* WebDriverWait(driver, 10).until(...) *)
| FindArrowButton                           (* arrow_icons[2].find_element(...) *)
| ClickArrow                                (* arrow_button.click() *)
| FindBody                                  (* driver.find_element(By.TAG_NAME, "body") *)
| SendTab                                   (* body.send_keys(Keys.TAB) *)
| FindReviews                               (* driver.find_elements(By.CLASS_NAME, "RHo1pe") *)
| OpenFile (path : str)                     (* open(output_file, mode="w", ...) *)
| WriteRecords (records : list (list str))  (* writeheader() and writerows(extracted) *)
| MessageBox (kind : dialog_kind) (title text : str)
| DriverQuit.                               (* driver.quit() *)

(** What the browser and the file system answer to the calls of one
    run: the exception a call raises, if any, and what it returns
    otherwise. *)
Record world := {
  chrome_start : option exn;
  driver_get : option exn;
  wait_arrows : exn + nat;                  (* the number of icons found *)
  find_arrow_button : option exn;
  arrow_click : option exn;
  find_body : option exn;
  send_tab : nat -> option exn;             (* the press number [i] *)
  find_reviews : exn + list review_elem;
  open_output : option exn;
  write_records : list (list str) -> option exn;
  driver_quit : option exn
}.

(** A step of the run: it extends the trace of calls and returns or
    raises. *)
Definition M (A : Type) : Type := list event -> (exn + A) * list event.

Definition ret {A} (a : A) : M A := fun t => (inr a, t).

Definition raise {A} (e : exn) : M A := fun t => (inl e, t).

Definition bind {A B} (m : M A) (f : A -> M B) : M B :=
  fun t =>
    match m t with
    | (inr a, t') => f a t'
    | (inl e, t') => (inl e, t')
    end.

#[local] Notation "x <- m ;; k" := (bind m (fun x => k))
  (at level 61, m at next level, right associativity).
#[local] Notation "m ;; k" := (bind m (fun _ => k))
  (at level 61, right associativity).

(** A call with its outcome. *)
Definition call {A} (ev : event) (outcome : exn + A) : M A :=
  fun t => (outcome, t ++ [ev]).

Definition raised (o : option exn) : exn + unit :=
  match o with
  | Some e => inl e
  | None => inr tt
  end.

(** [try: m finally: f]: [f] runs whatever [m] does, and an exception
    of [f] replaces the outcome of [m]. *)
Definition finally {A} (m : M A) (f : M unit) : M A :=
  fun t =>
    let (r, t') := m t in
    match f t' with
    | (inl e, t'') => (inl e, t'')
    | (inr _, t'') => (r, t'')
    end.

(** [QMessageBox.information], [.warning], [.critical] *)
Definition message_box (kind : dialog_kind) (title text : str) : M unit :=
  call (MessageBox kind title text) (inr tt).

Definition not_enough_arrows : exn := lit "Not enough arrow buttons found.".

Section Run.
Context {db : UnicodeDB}.
Variable w : world.

(** [for i in range(tab_count): body.send_keys(Keys.TAB)], from press
    [i] on, with [n] presses to go. *)
Fixpoint tab_loop (i n : nat) : M unit :=
  match n with
  | O => ret tt
  | S n' => call SendTab (raised (send_tab w i)) ;; tab_loop (S i) n'
  end.

(** The text of the success dialog:
    [f"Saved {len(extracted)} reviews to {output_file}"] *)
Definition saved_text (n : nat) (output_file : str) : str :=
  lit "Saved " ++ str_of_N (N.of_nat n) ++ lit " reviews to " ++ output_file.

(** [extract_reviews] (lines 112-198): the browser is started outside
    the [try]; the handler re-raises; [finally] closes the browser. *)
Definition extract_reviews (link : str) (is_kr : bool) (tab_count : nat)
           (output_file : str) : M unit :=
  call StartChrome (raised (chrome_start w)) ;;
  finally
    (call (DriverGet link) (raised (driver_get w)) ;;
     arrow_icons <- call WaitArrows (wait_arrows w) ;;
     (if 3 <=? arrow_icons
      then call FindArrowButton (raised (find_arrow_button w)) ;;
           call ClickArrow (raised (arrow_click w))
      else raise not_enough_arrows) ;;
     call FindBody (raised (find_body w)) ;;
     tab_loop 0 tab_count ;;
     reviews <- call FindReviews (find_reviews w) ;;
     let extracted := sorted_by_date (extracted is_kr reviews) in
     call (OpenFile output_file) (raised (open_output w)) ;;
     call (WriteRecords (csv_file extracted))
          (raised (write_records w (csv_file extracted))) ;;
     message_box Information (lit "Success")
                 (saved_text (length extracted) output_file))
    (call DriverQuit (raised (driver_quit w))).

(** The inputs of the window: the link field, the language buttons,
    the tab count and the output file chosen ([None] before the first
    choice). *)
Record window := {
  link_input : str;
  kr_checked : bool;
  tab_input : nat;
  output_file : option str
}.

(** [QSpinBox]: the value stays within the range of the box, which is
    0 to 99 when the box is made; a value set from outside the range
    becomes the nearest bound, and a new maximum lowers the minimum
    and the value where they exceed it. *)
Record spin_box := {
  minimum : nat;
  maximum : nat;
  value : nat
}.

Definition QSpinBox : spin_box := {| minimum := 0; maximum := 99; value := 0 |}.

Definition setValue (v : nat) (sb : spin_box) : spin_box :=
  {| minimum := minimum sb; maximum := maximum sb;
     value := Nat.max (minimum sb) (Nat.min v (maximum sb)) |}.

Definition setMaximum (m : nat) (sb : spin_box) : spin_box :=
  {| minimum := Nat.min (minimum sb) m; maximum := m;
     value := Nat.min (value sb) m |}.

(** The window as [__init__] leaves it: no link, Korean checked, the
    tab count set to 1000 and then the maximum of its box to 10000
    (lines 71-73), no output file. *)
Definition fresh_window : window :=
  {| link_input := []; kr_checked := true;
     tab_input := value (setMaximum 10000 (setValue 1000 QSpinBox));
     output_file := None |}.

(** [select_output_file] (lines 93-96), for the path the file dialog
    returns: the empty text when the dialog is cancelled. *)
Definition select_output_file (chosen : str) (win : window) : M window :=
  let win' := {| link_input := link_input win; kr_checked := kr_checked win;
                 tab_input := tab_input win; output_file := Some chosen |} in
  match chosen with
  | [] => ret win'
  | _ :: _ =>
      message_box Information (lit "File Selected") (lit "Output file: " ++ chosen) ;;
      ret win'
  end.

(** [run_scraper] (lines 98-110) *)
Definition run_scraper (win : window) : M unit :=
  let link := link_input win in
  let is_kr := kr_checked win in
  let tab_count := tab_input win in
  match link, output_file win with
  | _ :: _, Some ((_ :: _) as out) =>
      fun t =>
        match extract_reviews link is_kr tab_count out t with
        | (inr u, t') => (inr u, t')
        | (inl e, t') => message_box Critical (lit "Error") e t'
        end
  | _, _ => message_box Warning (lit "Error") (lit "Please provide all inputs.")
  end.

End Run.

End Scraper.
(** ** The insight generator ([doctor.py]) *)

Module Doctor.
Import Chunking.

Local Open Scope N_scope.

(** *** Values *)

(** A Python [float], which the program only recognises, never reads. *)
Inductive float_value :=
| FNaN
| FInf (negative : bool)
| FFinite (mantissa exponent : Z).

(** An element of [df['review'].tolist()]: the [pandas] reader gives
    text, [nan] for a missing value, or numbers and booleans when the
    whole column reads as such. *)
Inductive cell :=
| CStr (s : str)
| CFloat (f : float_value)
| CInt (z : Z)
| CBool (b : bool).

(** [str(text)] for a cell that is not a float.  The program never
    takes the text of a float (line 119 returns before line 122), and
    no statement below reads this function at one: the value there is
    a filler. *)
Definition str_of_cell (c : cell) : str :=
  match c with
  | CStr s => s
  | CInt z => str_of_Z z
  | CBool true => lit "True"
  | CBool false => lit "False"
  | CFloat _ => []
  end.

(** *** The text normaliser (lines 117-131) *)

Section Normalizer.
Context {db : UnicodeDB}.

(** The punctuation listed in both sets: [.,!?] *)
Definition is_punct (c : N) : bool :=
  (c =? 46) || (c =? 44) || (c =? 33) || (c =? 63).

(** The members of the set [[^\uAC00-\uD7A3\w\s.,!?]] *)
Definition KR_SET : list (N -> bool) :=
  [in_range 0xAC00 0xD7A3; isword; isspace; is_punct].

(** The members of the set [[^a-zA-Z0-9\w\s.,!?]] *)
Definition EN_SET : list (N -> bool) :=
  [in_range 97 122; in_range 65 90; in_range 48 57; isword; isspace; is_punct].

(** A character matches the negated set when no member holds it. *)
Definition negated_set (members : list (N -> bool)) (c : N) : bool :=
  negb (existsb (fun p => p c) members).

(** [re.sub(pattern, '', text)] for a pattern that is one character
    set: every character the set matches is deleted. *)
Definition re_sub_delete (pattern : N -> bool) (text : str) : str :=
  filter (fun c => negb (pattern c)) text.

(** [self.language = 'EN'] *)
Definition default_language : str := lit "EN".

Definition normalize_text (language : str) (text : cell) : str :=
  match text with
  | CFloat _ => []
  | _ =>
      let text := str_of_cell text in
      let text :=
        if str_eqb language (lit "KR")
        then re_sub_delete (negated_set KR_SET) text
        else re_sub_delete (negated_set EN_SET) text in
      py_join [32] (py_split text)
  end.

End Normalizer.

(** *** The completion endpoint (lines 95-115) *)

(** The value [response.json()] returns. *)
Inductive json :=
| JNull
| JBool (b : bool)
| JInt (z : Z)
| JFloat (f : float_value)
| JStr (s : str)
| JList (l : list json)
| JDict (d : list (str * json)).

(** The operations whose operand can have the wrong type. *)
Inductive operation := OpIn | OpGetItem | OpLen | OpAdd.

Inductive exn :=
| PyException (msg : str)              (** [Exception(msg)] *)
| KeyError (key : json)
| IndexError (v : json)
| TypeError (o : operation) (v : json).

(** What the interpreter prints of values and of its own errors. *)
Class PyRuntime := {
  (** [repr(v)] *)
  py_repr : json -> str;
  (** the message of the [TypeError] an operation raises on a value *)
  type_error_text : operation -> json -> str;
  (** the message of the [IndexError] of [v[0]] *)
  index_error_text : json -> str
}.

(** The JSON body of the request. *)
Record payload := {
  model : str;
  prompt : str;
  max_tokens : Z;
  temperature : Z * Z   (* 0.7, as a fraction *)
}.

(** What [requests.post] brings back. *)
Record response := {
  status_code : Z;
  reason : str;
  url : str;
  body : str + json     (* the decoded body, or the decoder's message *)
}.

Inductive http_outcome :=
| Failed (msg : str)    (** [requests.post] raised a [RequestException] *)
| Responded (r : response).

(** The endpoint answers a request knowing the requests before it. *)
Definition server := list payload -> payload -> http_outcome.

Definition lmstudio_api_url : str := lit "http://127.0.0.1:1234/v1/completions".
Definition model_identifier : str := lit "gemma-3-27b-it-qat".

(** The state a run changes: the requests posted, oldest first, and
    the text of the output area. *)
Record state := {
  posted : list payload;
  output_text : str
}.

Definition M (A : Type) : Type := state -> (exn + A) * state.

Definition ret {A} (a : A) : M A := fun st => (inr a, st).

Definition raise {A} (e : exn) : M A := fun st => (inl e, st).

Definition bind {A B} (m : M A) (f : A -> M B) : M B :=
  fun st =>
    match m st with
    | (inr a, st') => f a st'
    | (inl e, st') => (inl e, st')
    end.

(** [try: m  except Exception as e: ...], with the outcome as a value *)
Definition try {A} (m : M A) : M (exn + A) :=
  fun st => let (r, st') := m st in (inr r, st').

#[local] Notation "x <- m ;; k" := (bind m (fun x => k))
  (at level 61, m at next level, right associativity).
#[local] Notation "m ;; k" := (bind m (fun _ => k))
  (at level 61, right associativity).

(** [self.output_text.setText(t)] *)
Definition setText (t : str) : M unit :=
  fun st => (inr tt, {| posted := posted st; output_text := t |}).

Fixpoint prefixb (w s : str) : bool :=
  match w, s with
  | [], _ => true
  | _ :: _, [] => false
  | x :: w', y :: s' => (x =? y) && prefixb w' s'
  end.

Fixpoint substringb (w s : str) : bool :=
  prefixb w s || match s with [] => false | _ :: s' => substringb w s' end.

Definition is_str (key : str) (v : json) : bool :=
  match v with JStr s => str_eqb key s | _ => false end.

Fixpoint dict_get (key : str) (d : list (str * json)) : option json :=
  match d with
  | [] => None
  | (k, v) :: d' => if str_eqb key k then Some v else dict_get key d'
  end.

(** [key in v] for a text key *)
Definition py_in (key : str) (v : json) : exn + bool :=
  match v with
  | JDict d => inr (match dict_get key d with Some _ => true | None => false end)
  | JList l => inr (existsb (is_str key) l)
  | JStr s => inr (substringb key s)
  | _ => inl (TypeError OpIn v)
  end.

(** [v[key]] for a text key *)
Definition getitem_str (v : json) (key : str) : exn + json :=
  match v with
  | JDict d =>
      match dict_get key d with
      | Some x => inr x
      | None => inl (KeyError (JStr key))
      end
  | _ => inl (TypeError OpGetItem v)
  end.

(** [v[0]] *)
Definition getitem_0 (v : json) : exn + json :=
  match v with
  | JList (x :: _) => inr x
  | JList [] => inl (IndexError v)
  | JStr (c :: _) => inr (JStr [c])
  | JStr [] => inl (IndexError v)
  | JDict _ => inl (KeyError (JInt 0))
  | _ => inl (TypeError OpGetItem v)
  end.

(** [len(v)]; the keys of a dictionary count once each *)
Definition py_len (v : json) : exn + nat :=
  match v with
  | JList l => inr (length l)
  | JStr s => inr (length s)
  | JDict d => inr (length (nodup (list_eq_dec N.eq_dec) (map fst d)))
  | _ => inl (TypeError OpLen v)
  end.

Definition lift {A} (r : exn + A) : M A :=
  match r with
  | inl e => raise e
  | inr a => ret a
  end.

(** [Response.raise_for_status]: the message of the [HTTPError], for
    the statuses that have one. *)
Definition http_error_msg (r : response) : option str :=
  let s := status_code r in
  if ((400 <=? s) && (s <? 500))%Z then
    Some (str_of_Z s ++ lit " Client Error: " ++ reason r ++ lit " for url: " ++ url r)
  else if ((500 <=? s) && (s <? 600))%Z then
    Some (str_of_Z s ++ lit " Server Error: " ++ reason r ++ lit " for url: " ++ url r)
  else None.

Definition no_content : str := lit "No content returned from model.".

Definition request_failed (msg : str) : exn :=
  PyException (lit "LM Studio API request failed: " ++ msg).

(** The [payload] dictionary of [call_lmstudio]. *)
Definition make_payload (prompt : str) : payload :=
  {| model := model_identifier; prompt := prompt;
     max_tokens := 500; temperature := (7, 10)%Z |}.

Section Endpoint.
Variable srv : server.

(** [requests.post(self.lmstudio_api_url, json=payload)] *)
Definition post (p : payload) : M http_outcome :=
  fun st =>
    (inr (srv (posted st) p),
     {| posted := posted st ++ [p]; output_text := output_text st |}).

(** [call_lmstudio].  The failures of [requests] (transport, status,
    decoding) are re-raised as [Exception]; any other exception
    passes through.  (The debugging [print] is left out.) *)
Definition call_lmstudio (prompt : str) : M json :=
  let payload := make_payload prompt in
  out <- post payload ;;
  match out with
  | Failed msg => raise (request_failed msg)
  | Responded r =>
      match http_error_msg r with
      | Some msg => raise (request_failed msg)
      | None =>
          match body r with
          | inl msg => raise (request_failed msg)
          | inr data =>
              has <- lift (py_in (lit "choices") data) ;;
              if has : bool then
                choices <- lift (getitem_str data (lit "choices")) ;;
                n <- lift (py_len choices) ;;
                if (0 <? n)%nat then
                  first <- lift (getitem_0 choices) ;;
                  lift (getitem_str first (lit "text"))
                else ret (JStr no_content)
              else ret (JStr no_content)
          end
      end
  end.
End Endpoint.


(** *** The pipeline (lines 61-93) *)

(** The table [pd.read_csv] returns: its columns, by name. *)
Definition dataframe := list (str * list cell).

Fixpoint df_column (name : str) (df : dataframe) : option (list cell) :=
  match df with
  | [] => None
  | (n, col) :: df' => if str_eqb name n then Some col else df_column name df'
  end.

Section Pipeline.
Context {db : UnicodeDB} {rt : PyRuntime}.
Variable srv : server.
(** [self.language] and [self.prompt_input.text()] *)
Variable language : str.
Variable prompt_input : str.

(** [str(v)], the way an f-string shows a value *)
Definition py_str (v : json) : str :=
  match v with
  | JStr s => s
  | _ => py_repr v
  end.

(** [str(l)] for a list: the [repr] of the elements between brackets. *)
Definition str_of_list (l : list json) : str :=
  [91] ++ py_join (lit ", ") (map py_repr l) ++ [93].

(** [str(e)] *)
Definition str_of_exn (e : exn) : str :=
  match e with
  | PyException msg => msg
  | KeyError key => py_repr key
  | IndexError v => index_error_text v
  | TypeError o v => type_error_text o v
  end.

(** [response + "\n\n"] *)
Definition add_newlines (v : json) : exn + str :=
  match v with
  | JStr s => inr (s ++ [10; 10])
  | _ => inl (TypeError OpAdd v)
  end.

(** The prompt of one chunk:
    [f"{self.prompt_input.text()} Reviews: {normalized_chunk}"] *)
Definition chunk_prompt (chunk : list cell) : str :=
  let normalized_chunk := map (normalize_text language) chunk in
  prompt_input ++ lit " Reviews: " ++ str_of_list (map JStr normalized_chunk).

(** The prompt of the final call; the second line of the literal
    keeps its indentation. *)
Definition final_prompt (chunk_reports : list json) : str :=
  lit "Combine the following UI/UX reports from Google Play Store review analysis into a single, concise list of actionable insights.  Prioritize the most important issues (maximum 5). Remove redundant information. I do NOT want code or rambling in the response."
  ++ [10] ++ lit "        Reports: " ++ str_of_list chunk_reports.

(** The [for i in range(0, num_reviews, self.chunk_size)] loop over
    the indices still to visit.  [None] is the early [return] of the
    handler; otherwise the chunk reports collected. *)
Fixpoint chunk_loop (all_reviews : list cell) (indices : list nat)
         (chunk_reports : list json) (insights : str)
  : M (option (list json)) :=
  match indices with
  | [] => ret (Some chunk_reports)
  | i :: indices' =>
      let chunk := slice all_reviews i (i + chunk_size) in
      let prompt := chunk_prompt chunk in
      r <- try (response <- call_lmstudio srv prompt ;;
                let chunk_reports' := chunk_reports ++ [response] in
                s <- lift (add_newlines response) ;;
                ret (chunk_reports', insights ++ s)) ;;
      match r with
      | inr (chunk_reports', insights') =>
          chunk_loop all_reviews indices' chunk_reports' insights'
      | inl e =>
          setText (lit "Error calling LM Studio API: " ++ str_of_exn e) ;;
          ret None
      end
  end.

Definition generate_insights (df : dataframe) : M unit :=
  match df_column (lit "review") df with
  | None => setText (lit "Error: 'review' column not found in the CSV file.")
  | Some all_reviews =>
      let num_reviews := length all_reviews in
      done <- chunk_loop all_reviews (py_range 0 num_reviews chunk_size) [] [] ;;
      match done with
      | None => ret tt
      | Some chunk_reports =>
          r <- try (call_lmstudio srv (final_prompt chunk_reports)) ;;
          match r with
          | inr final_response =>
              setText (lit "Final Report:" ++ [10] ++ py_str final_response)
          | inl e =>
              setText (lit "Error generating final report: " ++ str_of_exn e)
          end
      end
  end.

(** A run from the state of a fresh window. *)
Definition initial : state := {| posted := []; output_text := [] |}.

Definition run (df : dataframe) : state := snd (generate_insights df initial).

End Pipeline.

End Doctor.

(** ** The window of the insight generator ([doctor.py], lines 49-59) *)

Module DoctorUI.
Import Doctor.

(** What the handlers read and write of the window: the path chosen and
    the state of the Analyze button. *)
Record window := {
  csv_file : option str;        (* [self.csv_file], [None] at start *)
  analyze_enabled : bool        (* [self.analyze_button.isEnabled()] *)
}.

(** The window as [__init__] leaves it. *)
Definition fresh_window : window :=
  {| csv_file := None; analyze_enabled := false |}.

(** [select_csv_file]: [chosen] is what the file dialog returns, the
    empty text when the user cancels.  The path is stored in any case;
    the button is enabled when the path is not empty, and nothing
    disables it. *)
Definition select_csv_file (chosen : str) (w : window) : window :=
  {| csv_file := Some chosen;
     analyze_enabled :=
       match chosen with
       | [] => analyze_enabled w
       | _ :: _ => true
       end |}.

Section Analyze.
Context {db : UnicodeDB} {rt : PyRuntime}.
Variable srv : server.
Variables language prompt_input : str.

(** [analyze_reviews]: [read] is the outcome of [pd.read_csv] on the
    stored path, the table or the exception raised. *)
Definition analyze_reviews (read : exn + dataframe) : M unit :=
  fun st =>
    match bind (lift read) (generate_insights srv language prompt_input) st with
    | (inr u, st') => (inr u, st')
    | (inl e, st') =>
        setText (lit "Error loading or analyzing CSV file: " ++ str_of_exn e) st'
    end.

(** A click on the Analyze button: the handler runs when the button is
    enabled.  [read_csv] is [pd.read_csv] on this machine's files. *)
Definition click_analyze (read_csv : option str -> exn + dataframe)
           (w : window) : M unit :=
  if analyze_enabled w then analyze_reviews (read_csv (csv_file w)) else ret tt.

End Analyze.

End DoctorUI.

(** ** Notions of the specification *)

Import Regex Crawler Doctor.

(** [a <= b] on texts: [b < a] does not hold. *)
Definition str_le (a b : str) : Prop := str_ltb b a = false.

(** Rows in non-decreasing order of date. *)
Definition date_le (a b : row) : Prop := str_le (date a) (date b).

Definition has_date (d : str) (r : row) : bool := str_eqb (date r) d.

(** A text without white space, and a word: such a text, not empty. *)
Definition nonspace (w : str) : Prop := Forall (fun c => isspace c = false) w.

Definition word (w : str) : Prop := w <> [] /\ nonspace w.

(** Collapsing white space, in one pass over the text: a run of white
    space between two words becomes one space, and the runs in front
    of the first word and behind the last one disappear. *)
Inductive scan_state := AtStart | InWord | AfterGap.

Fixpoint collapse (s : str) (st : scan_state) : str :=
  match s with
  | [] => []
  | c :: s' =>
      if isspace c then
        collapse s' (match st with AtStart => AtStart | _ => AfterGap end)
      else
        match st with
        | AfterGap => 32%N :: c :: collapse s' InWord
        | _ => c :: collapse s' InWord
        end
  end.

Definition collapse_whitespace (s : str) : str := collapse s AtStart.

Section NormalizerSpec.
Context {db : UnicodeDB}.

(** The characters that survive, in either locale: letters and digits
    of any script, the underscore, white space, and [. , ! ?]. *)
Definition allowed (c : N) : bool :=
  isalnum c || (c =? 95)%N || isspace c || is_punct c.

Definition spec_normalize (text : cell) : str :=
  match text with
  | CFloat _ => []
  | _ => collapse_whitespace (filter allowed (str_of_cell text))
  end.

(** The allowed sets as the specification words them: letters, digits
    and basic punctuation for English; the Hangul block plus basic
    punctuation for Korean (white space stays, to be collapsed). *)
Definition claimed_allowed (language : str) (c : N) : bool :=
  if str_eqb language (lit "KR")
  then in_range 0xAC00 0xD7A3 c || is_punct c || isspace c
  else isalnum c || is_punct c || isspace c.

Definition claimed_normalize (language : str) (text : cell) : str :=
  match text with
  | CFloat _ => []
  | _ => collapse_whitespace (filter (claimed_allowed language) (str_of_cell text))
  end.

End NormalizerSpec.

(** *** The completion call *)

(** What one call returns or raises when the requests in [history]
    came before it. *)
Definition response_of (srv : server) (history : list payload) (prompt : str)
  : exn + json :=
  fst (call_lmstudio srv prompt {| posted := history; output_text := [] |}).




(** The outcome of the step of the loop on one chunk: the call and the
    concatenation [response + "\n\n"] that follows it. *)
Definition step_outcome (r : exn + json) : exn + str :=
  match r with
  | inl e => inl e
  | inr (JStr s) => inr s
  | inr v => inl (TypeError OpAdd v)
  end.

(** *** The pipeline *)

Section PipelineSpec.
Context {db : UnicodeDB} {rt : PyRuntime}.
Variable srv : server.
Variables language prompt_input : str.

(** The prompts of the chunk calls, for given start indices. *)
Definition prompts_at (all_reviews : list cell) (indices : list nat) : list str :=
  map (fun i => chunk_prompt language prompt_input
                  (Chunking.slice all_reviews i (i + Chunking.chunk_size)))
      indices.

(** The prompts of the chunk calls of a run, in order. *)
Definition chunk_prompts (all_reviews : list cell) : list str :=
  map (chunk_prompt language prompt_input) (Chunking.chunks all_reviews).

(** The outcome of the step on chunk [j], when the requests of the
    chunks before it have been posted after [history]. *)
Definition step_at (history : list payload) (prompts : list str) (j : nat)
  : exn + str :=
  step_outcome
    (response_of srv (history ++ firstn j (map make_payload prompts))
                 (nth j prompts [])).

Definition chunk_error (e : exn) : str :=
  lit "Error calling LM Studio API: " ++ str_of_exn e.

End PipelineSpec.

(** *** Ratings and dates *)

Section ParsingSpec.
Context {db : UnicodeDB}.

(** A numeral and the number it denotes, by position: a digit, or a
    numeral followed by a digit. *)
Inductive numeral : str -> N -> Prop :=
| numeral_digit c v : decimal c = Some v -> numeral [c] v
| numeral_snoc ds n c v :
    numeral ds n -> decimal c = Some v -> numeral (ds ++ [c]) (10 * n + v)%N.

(** The pattern of a rating: literal text, a run of digits as group 1,
    literal text. *)
Definition numeral_between (pre post : str) : regex :=
  Cat (text pre) (Cat (Group 1 (Plus isdecimal)) (text post)).

(** The literal text before and after the number of stars in the label
    of each locale. *)
Definition rating_prefix (is_kr : bool) : str :=
  if is_kr then [] else lit "Rated ".

Definition rating_suffix (is_kr : bool) : str :=
  if is_kr
  then [0xAC1C; 0xB97C; 32; 0xBC1B; 0xC558; 0xC2B5; 0xB2C8; 0xB2E4]%N
  else lit " stars".

(** The label holds, after [pre], the locale's rating text around the
    numeral [ds]. *)
Definition rating_at (is_kr : bool) (label pre ds : str) : Prop :=
  exists suf, label = pre ++ rating_prefix is_kr ++ ds ++ rating_suffix is_kr ++ suf.

(** ... and no numeral stands in such a text further to the left. *)
Definition leftmost_rating (is_kr : bool) (label pre ds : str) : Prop :=
  rating_at is_kr label pre ds
  /\ forall pre' ds' n', numeral ds' n' -> rating_at is_kr label pre' ds' ->
       length pre <= length pre'.

End ParsingSpec.

(** *** ISO dates *)

(** [P] holds of [start], [start + 1], ..., [fuel] numbers in all. *)
Fixpoint all_below (P : N -> bool) (fuel : nat) (start : N) : bool :=
  match fuel with
  | O => true
  | S fuel' => P start && all_below P fuel' (N.succ start)
  end.

(** The ASCII digit of the units of [n]. *)
Definition digit (n : N) : N := (48 + n mod 10)%N.

Definition four_digits (y : N) : str :=
  [digit (y / 1000); digit (y / 100); digit (y / 10); digit y]%N.

Definition two_digits (m : N) : str := [digit (m / 10); digit m]%N.

(** [YYYY-MM-DD] *)
Definition iso_date (y m d : N) : str :=
  four_digits y ++ [45%N] ++ two_digits m ++ [45%N] ++ two_digits d.


(** The English month names, as a page shows them. *)
Definition month_name_en (m : N) : str :=
  nth (N.to_nat (m - 1))
      (map lit ["January"; "February"; "March"; "April"; "May"; "June"; "July";
                "August"; "September"; "October"; "November"; "December"]%string)
      [].

(** ["Month D, YYYY"] *)
Definition english_date (y m d : N) : str :=
  month_name_en m ++ lit " " ++ str_of_N d ++ lit ", " ++ four_digits y.

(** [int] reads the numeral [ds] and the conversion to text writes the
    number [n] back: neither has more than [int_max_str_digits]
    digits. *)
Definition convertible (ds : str) (n : N) : bool :=
  ((length ds <=? int_max_str_digits) && (length (str_of_N n) <=? int_max_str_digits))%nat.

Section DateSpec.
Context {db : UnicodeDB}.

Definition nodigit (t : str) : Prop := Forall (fun c => isdecimal c = false) t.

(** A text whose first three numerals are [Y], [M] and [D], in that
    order: they are kept apart, and from what goes before and comes
    after, by characters that are not digits. *)
Definition korean_date (text Y M D : str) : Prop :=
  exists t0 t1 t2 t3,
    text = t0 ++ Y ++ t1 ++ M ++ t2 ++ D ++ t3
    /\ nodigit t0
    /\ t1 <> [] /\ nodigit t1
    /\ t2 <> [] /\ nodigit t2
    /\ match t3 with [] => True | c :: _ => isdecimal c = false end.

(** The numerals of a text, by position: the text is cut into
    stretches without digits and runs of digits, each run as long as
    it can be. *)
Inductive digit_runs : str -> list str -> Prop :=
| runs_none t : nodigit t -> digit_runs t []
| runs_next t0 ds s rs :
    nodigit t0 ->
    ds <> [] -> Forall (fun c => isdecimal c = true) ds ->
    match s with [] => True | c :: _ => isdecimal c = false end ->
    digit_runs s rs ->
    digit_runs (t0 ++ ds ++ s) (ds :: rs).

End DateSpec.


(** *** Review elements *)

(** What the scraper reads of a review element that has every part:
    the text, the label and the date text. *)
Definition element_fields (e : review_elem) : option (str * str * str) :=
  match body_text e, meta e with
  | Some t, Some mt =>
      match aria_label mt, date_text mt with
      | Some (Some label), Some dt => Some (t, label, dt)
      | _, _ => None
      end
  | _, _ => None
  end.

(** *** The scraper run *)

Section ScraperSpec.
Import Scraper.

Definition is_dialog (ev : event) : bool :=
  match ev with MessageBox _ _ _ => true | _ => false end.

(** The browser shows the page [pg]: every call up to the reading of
    the review elements succeeds, with the icons and the elements of
    [pg]. *)
Definition page_loaded (w : world) (tab_count : nat) (pg : page) : Prop :=
  chrome_start w = None /\ driver_get w = None
  /\ wait_arrows w = inr (arrow_icons pg)
  /\ find_arrow_button w = None /\ arrow_click w = None /\ find_body w = None
  /\ (forall i, i < tab_count -> send_tab w i = None)
  /\ find_reviews w = inr (reviews pg).

(** The run saves [rows]: the page is loaded and read, and the file
    is opened and written without an error. *)
Definition saves {db : UnicodeDB} (w : world) (is_kr : bool) (tab_count : nat)
           (rows : list row) : Prop :=
  exists pg,
    page_loaded w tab_count pg /\ open_output w = None
    /\ Crawler.extract_reviews is_kr pg = Some rows
    /\ write_records w (csv_file rows) = None.

Definition success_dialog (n : nat) (output_file : str) : event :=
  MessageBox Information (lit "Success") (saved_text n output_file).

Definition error_dialog (e : exn) : event := MessageBox Critical (lit "Error") e.

Definition missing_inputs_dialog : event :=
  MessageBox Warning (lit "Error") (lit "Please provide all inputs.").

(** The file dialog opened once for each of [choices], in order. *)
Fixpoint select_output_files (choices : list str) (win : window) : M window :=
  match choices with
  | [] => ret win
  | chosen :: choices' =>
      bind (select_output_file chosen win) (select_output_files choices')
  end.

End ScraperSpec.
(** ** A concrete table

    The Unicode tables cut down to the two scripts of the program's
    locales: the ASCII digits as decimal digits; the ASCII letters and
    digits and the Hangul syllables as alphanumerics.  It serves to
    run the definitions on concrete texts. *)

Definition ascii_hangul_db : UnicodeDB := {|
  decimal c := if ((48 <=? c) && (c <=? 57))%N then Some (c - 48)%N else None;
  isalnum c := (((48 <=? c) && (c <=? 57)) || ((65 <=? c) && (c <=? 90))
               || ((97 <=? c) && (c <=? 122))
               || ((0xAC00 <=? c) && (c <=? 0xD7A3)))%N
|}.

(** ** Sample inputs *)

Definition sample_review (text label date : string) : Crawler.review_elem :=
  {| Crawler.body_text := Some (lit text);
     Crawler.meta := Some {| Crawler.aria_label := Some (Some (lit label));
                             Crawler.date_text := Some (lit date) |} |}.

(** A page in the English locale: three reviews, two of the same day. *)
Definition sample_page : Crawler.page :=
  {| Crawler.arrow_icons := 3;
     Crawler.reviews :=
       [ sample_review "great app" "Rated 5 stars out of five stars" "July 9, 2023";
         sample_review "slow" "Rated 2 stars out of five stars" "March 1, 2022";
         sample_review "crashes" "Rated 1 stars out of five stars" "July 9, 2023" ] |}.

(** An endpoint that answers every request with one response. *)
Definition constant_server (status : Z) (data : Doctor.json) : Doctor.server :=
  fun _ _ =>
    Doctor.Responded {| Doctor.status_code := status;
                        Doctor.reason := lit "OK";
                        Doctor.url := Doctor.lmstudio_api_url;
                        Doctor.body := inr data |}.

(** The body [{"choices": [{"text": "fine"}]}] *)
Definition sample_completion : Doctor.json :=
  Doctor.JDict [(lit "choices",
    Doctor.JList [Doctor.JDict [(lit "text", Doctor.JStr (lit "fine"))]])].

(** An endpoint whose second request meets a refused connection. *)
Definition second_call_fails : Doctor.server :=
  fun history p =>
    if Nat.eqb (length history) 1
    then Doctor.Failed (lit "connection refused")
    else constant_server 200 sample_completion history p.

(** An interpreter that shows a text between single quotes and any
    other value as [...]; enough to run the pipeline on plain texts. *)
Definition plain_runtime : Doctor.PyRuntime := {|
  Doctor.py_repr v :=
    match v with
    | Doctor.JStr s => [39%N] ++ s ++ [39%N]
    | _ => lit "..."
    end;
  Doctor.type_error_text _ _ := lit "unsupported operand";
  Doctor.index_error_text _ := lit "index out of range"
|}.

(** The table of a CSV file with 45 reviews, and one with none. *)
Definition sample_df : Doctor.dataframe :=
  [(lit "rating", repeat (Doctor.CInt 5) 45);
   (lit "review", repeat (Doctor.CStr (lit "good  app!")) 45)].

Definition empty_df : Doctor.dataframe :=
  [(lit "review", []); (lit "rating", []); (lit "date", [])].




(** The body [{"choices": [{"text": 5}]}]: the generated content is a
    number, not a text. *)
Definition number_completion : Doctor.json :=
  Doctor.JDict [(lit "choices",
    Doctor.JList [Doctor.JDict [(lit "text", Doctor.JInt 5)]])].
(* ================================================================== *)
(** * Properties *)
(* ================================================================== *)

Import Chunking.

(** ** Chunking *)

Section ChunkingFacts.
Context {A : Type}.

Lemma slice_length (l : list A) i j :
  length (slice l i j) = Nat.min (j - i) (length l - i).
Proof. unfold slice. now rewrite length_firstn, length_skipn. Qed.

Lemma range_loop_chunks step fuel (l : list A) i :
  0 < step -> i <= length l -> length l - i <= fuel ->
  concat (map (fun k => slice l k (k + step)) (range_loop fuel i (length l) step))
  = skipn i l.
Proof.
  intros Hs. revert i. induction fuel as [|fuel IH]; intros i Hi Hf.
  - simpl. assert (i = length l) by lia. subst. now rewrite skipn_all.
  - simpl. destruct (Nat.ltb_spec i (length l)) as [Hlt|Hge].
    + simpl. unfold slice at 1. replace (i + step - i) with step by lia.
      destruct (Nat.le_gt_cases (i + step) (length l)) as [Hle|Hgt].
      * rewrite IH by lia.
        rewrite <- (firstn_skipn step (skipn i l)) at 2.
        f_equal. rewrite skipn_skipn. f_equal. lia.
      * assert (Hnil : range_loop fuel (i + step) (length l) step = []).
        { destruct fuel; simpl; [reflexivity|].
          destruct (Nat.ltb_spec (i + step) (length l)); [lia|reflexivity]. }
        rewrite Hnil. simpl. rewrite app_nil_r.
        apply firstn_all2. rewrite length_skipn. lia.
    + simpl. assert (i = length l) by lia. subst. now rewrite skipn_all.
Qed.

Lemma range_loop_length step fuel stop i :
  0 < step -> stop - i <= fuel ->
  length (range_loop fuel i stop step) = ceil_div (stop - i) step.
Proof.
  intros Hs. revert i. induction fuel as [|fuel IH]; intros i Hf.
  - simpl. replace (stop - i) with 0 by lia. unfold ceil_div.
    symmetry. apply Nat.div_small. lia.
  - simpl. destruct (Nat.ltb_spec i stop) as [Hlt|Hge].
    + simpl. rewrite IH by lia. unfold ceil_div.
      destruct (Nat.le_gt_cases (i + step) stop) as [Hle|Hgt].
      * replace (stop - i + (step - 1)) with (stop - (i + step) + (step - 1) + 1 * step) by lia.
        rewrite Nat.div_add by lia. lia.
      * replace (stop - (i + step)) with 0 by lia.
        rewrite (Nat.div_small (0 + (step - 1))) by lia.
        assert (H1 : (stop - i + (step - 1)) / step = 1).
        { symmetry. apply (Nat.div_unique _ _ 1 (stop - i - 1)); lia. }
        lia.
    + simpl. replace (stop - i) with 0 by lia. unfold ceil_div.
      symmetry. apply Nat.div_small. lia.
Qed.

Lemma range_loop_nth step fuel stop i k :
  0 < step -> stop - i <= fuel ->
  k < length (range_loop fuel i stop step) ->
  nth k (range_loop fuel i stop step) 0 = i + k * step.
Proof.
  intros Hs. revert i k. induction fuel as [|fuel IH]; intros i k Hf Hk.
  - simpl in Hk. lia.
  - simpl in *. destruct (Nat.ltb_spec i stop) as [Hlt|Hge]; simpl in *; [|lia].
    destruct k as [|k]; [lia|]. rewrite IH by lia. lia.
Qed.

End ChunkingFacts.

Lemma ceil_div_bounds a b :
  0 < b -> a <= b * ceil_div a b < a + b.
Proof.
  intros Hb. unfold ceil_div.
  pose proof (Nat.div_mod_eq (a + (b - 1)) b) as E.
  pose proof (Nat.mod_upper_bound (a + (b - 1)) b) as U.
  lia.
Qed.

(** C1. The chunking step of [generate_insights] cuts a review-text
    sequence of length L into ceil(L/20) contiguous chunks, in order:
    chunk k is the slice [20k, 20k+20) of the sequence, every chunk but
    the last holds 20 elements, the last holds between 1 and 20, the
    chunks concatenated give back the sequence, and 45 reviews give
    chunks of sizes 20, 20 and 5. *)
Theorem chunks_partition (A : Type) (all_reviews : list A) :
  let cs := chunks all_reviews in
  let L := length all_reviews in
  concat cs = all_reviews
  /\ length cs = ceil_div L 20
  /\ L <= 20 * length cs < L + 20
  /\ (forall k, k < length cs ->
        nth k cs [] = slice all_reviews (20 * k) (20 * k + 20)
        /\ length (nth k cs []) = (if S k <? length cs then 20 else L - 20 * k)
        /\ 1 <= length (nth k cs []) <= 20)
  /\ (L = 45 -> map (@length A) cs = [20; 20; 5]).
Proof.
  intros cs L.
  assert (Hlen : length cs = ceil_div L 20).
  { unfold cs, chunks, py_range. rewrite length_map.
    rewrite range_loop_length by (unfold chunk_size; lia).
    now rewrite Nat.sub_0_r. }
  assert (Hb : L <= 20 * length cs < L + 20).
  { rewrite Hlen. apply ceil_div_bounds. lia. }
  assert (Hcat : concat cs = all_reviews).
  { unfold cs, chunks, py_range.
    rewrite range_loop_chunks by (unfold chunk_size; lia). reflexivity. }
  assert (Hnth : forall k, k < length cs ->
            nth k cs [] = slice all_reviews (20 * k) (20 * k + 20)).
  { intros k Hk. unfold cs, chunks in *. rewrite length_map in Hk.
    rewrite (nth_indep _ [] (slice all_reviews 0 (0 + chunk_size)))
      by now rewrite length_map.
    rewrite (map_nth (fun i => slice all_reviews i (i + chunk_size))).
    unfold py_range in *.
    rewrite range_loop_nth; [| unfold chunk_size; lia | lia | exact Hk].
    unfold chunk_size. f_equal; lia. }
  split; [exact Hcat|]. split; [exact Hlen|]. split; [exact Hb|]. split.
  - intros k Hk. rewrite (Hnth k Hk). rewrite slice_length. fold L.
    split; [reflexivity|].
    destruct (Nat.ltb_spec (S k) (length cs)); lia.
  - intros H45.
    assert (H3 : length cs = 3) by lia.
    pose proof (Hnth 0) as N0. pose proof (Hnth 1) as N1. pose proof (Hnth 2) as N2.
    destruct cs as [|c0 [|c1 [|c2 [|c3 cs']]]]; simpl in H3; try lia.
    simpl in N0, N1, N2. simpl.
    rewrite N0, N1, N2 by lia. rewrite !slice_length. fold L. rewrite H45.
    reflexivity.
Qed.

(** The 45-review run of the specification, on the sequence 0..44. *)
Lemma chunks_partition_witness :
  map (@length nat) (chunks (seq 0 45)) = [20; 20; 5].
Proof.
  apply (chunks_partition (seq 0 45)). reflexivity.
Defined.

(** ** Ordering of the persisted rows *)

Section SortingFacts.
Local Open Scope N_scope.

Lemma str_ltb_irrefl a : str_ltb a a = false.
Proof.
  induction a as [|x a IH]; simpl; [reflexivity|].
  now rewrite N.ltb_irrefl.
Qed.

Lemma str_ltb_asym a b : str_ltb a b = true -> str_ltb b a = false.
Proof.
  revert b. induction a as [|x a IH]; intros [|y b]; simpl; try easy.
  destruct (N.ltb_spec x y), (N.ltb_spec y x); try easy; try lia.
  apply IH.
Qed.

Lemma str_le_trans a b c : str_le a b -> str_le b c -> str_le a c.
Proof.
  unfold str_le. revert b c.
  induction a as [|x a IH]; intros [|y b] [|z c]; simpl; try easy.
  destruct (N.ltb_spec y x), (N.ltb_spec x y), (N.ltb_spec z y),
    (N.ltb_spec y z), (N.ltb_spec z x), (N.ltb_spec x z);
    try easy; try lia.
  apply IH.
Qed.

Lemma has_date_true d r : has_date d r = true <-> date r = d.
Proof.
  unfold has_date, str_eqb.
  destruct (list_eq_dec N.eq_dec (date r) d); split; congruence.
Qed.

Lemma insert_by_date_perm x l : Permutation (x :: l) (insert_by_date x l).
Proof.
  induction l as [|y l IH]; simpl; [reflexivity|].
  destruct (str_ltb (date y) (date x)); [|reflexivity].
  rewrite perm_swap. now constructor.
Qed.

Lemma insert_by_date_Forall (P : row -> Prop) x l :
  P x -> Forall P l -> Forall P (insert_by_date x l).
Proof.
  intros Hx Hl. induction Hl as [|y l Hy Hl IH]; simpl.
  - now constructor.
  - destruct (str_ltb (date y) (date x)); repeat constructor; assumption.
Qed.

Lemma insert_by_date_sorted x l :
  StronglySorted date_le l -> StronglySorted date_le (insert_by_date x l).
Proof.
  induction 1 as [|y l Hs IH Hy]; simpl.
  - repeat constructor.
  - destruct (str_ltb (date y) (date x)) eqn:E.
    + constructor; [exact IH|].
      apply insert_by_date_Forall; [|exact Hy].
      now apply str_ltb_asym.
    + constructor; [now constructor|].
      constructor; [exact E|].
      eapply Forall_impl; [|exact Hy].
      intros z Hz. unfold date_le in *. eapply str_le_trans; [exact E|exact Hz].
Qed.

(** Inserting [x] leaves it in front of every row of its date. *)
Lemma insert_by_date_filter d x l :
  filter (has_date d) (insert_by_date x l) = filter (has_date d) (x :: l).
Proof.
  induction l as [|y l IH]; simpl; [reflexivity|].
  destruct (str_ltb (date y) (date x)) eqn:E; [|reflexivity].
  simpl. rewrite IH. simpl.
  destruct (has_date d x) eqn:Hx, (has_date d y) eqn:Hy; try reflexivity.
  apply has_date_true in Hx, Hy. rewrite Hx, Hy, str_ltb_irrefl in E.
  discriminate.
Qed.

Lemma sorted_by_date_spec l :
  StronglySorted date_le (sorted_by_date l)
  /\ Permutation l (sorted_by_date l)
  /\ forall d, filter (has_date d) (sorted_by_date l) = filter (has_date d) l.
Proof.
  induction l as [|x l (Hs & Hp & Hf)]; simpl.
  - repeat split; constructor.
  - split; [now apply insert_by_date_sorted|]. split.
    + rewrite <- insert_by_date_perm. now constructor.
    + intros d. rewrite insert_by_date_filter. simpl. now rewrite Hf.
Qed.

End SortingFacts.

(** C5. The rows handed to the CSV writer are in non-decreasing order
    of their date field, they are the parsed rows rearranged, and for
    every date the rows of that date stand in the order in which they
    were met on the page: the sort is stable. *)
Theorem persisted_rows_sorted_stable
  (db : UnicodeDB) (is_kr : bool) (pg : page) (rows : list row) :
  extract_reviews is_kr pg = Some rows ->
  StronglySorted date_le rows
  /\ Permutation (extracted is_kr (reviews pg)) rows
  /\ forall d, filter (has_date d) rows
               = filter (has_date d) (extracted is_kr (reviews pg)).
Proof.
  unfold extract_reviews. destruct (3 <=? arrow_icons pg)%nat; [|discriminate].
  intros [= <-]. apply sorted_by_date_spec.
Qed.

(** Three English reviews, two of them of the same day. *)
Lemma persisted_rows_sorted_stable_witness :
  exists rows,
    extract_reviews (db := ascii_hangul_db) false sample_page = Some rows
    /\ StronglySorted date_le rows
    /\ map review rows = [lit "slow"; lit "great app"; lit "crashes"].
Proof.
  eexists. split; [reflexivity|]. split.
  - apply (@persisted_rows_sorted_stable ascii_hangul_db false sample_page).
    reflexivity.
  - reflexivity.
Defined.

(** ** The text normaliser *)

Lemma ascii_hangul_facts : UnicodeFacts ascii_hangul_db.
Proof.
  split; simpl; intros c H; try reflexivity.
  - destruct ((48 <=? c) && (c <=? 57))%N eqn:E; [|reflexivity].
    apply andb_true_iff in E. destruct E as [E1 E2].
    apply N.leb_le in E1, E2. lia.
  - unfold isspace in H.
    destruct ((48 <=? c) && (c <=? 57))%N eqn:E; [|reflexivity].
    apply andb_true_iff in E. destruct E as [E1 E2].
    apply N.leb_le in E1, E2.
    repeat (apply orb_true_iff in H; destruct H as [H|H]);
      repeat (apply andb_true_iff in H; destruct H as [? H]);
      repeat match goal with
             | X : (_ <=? _)%N = true |- _ => apply N.leb_le in X
             | X : (_ =? _)%N = true |- _ => apply N.eqb_eq in X
             end; lia.
  - destruct ((0xAC00 <=? c) && (c <=? 0xD7A3))%N eqn:E.
    + apply andb_true_iff in E. destruct E as [E1 E2].
      apply N.leb_le in E1, E2. lia.
    + now rewrite orb_false_r.
  - destruct H as [H1 H2]. apply N.leb_le in H1, H2.
    rewrite H1, H2. now rewrite !orb_true_r.
Qed.

Section SplitJoin.

Lemma split_loop_word s cur :
  nonspace cur -> Forall word (split_loop s cur).
Proof.
  revert cur. induction s as [|c s IH]; intros cur Hc; simpl.
  - destruct cur as [|x cur]; [constructor|].
    constructor; [|constructor]. split.
    + intros E. apply (f_equal (@length N)) in E.
      rewrite length_rev in E. discriminate.
    + unfold nonspace. apply Forall_rev. exact Hc.
  - destruct (isspace c) eqn:E.
    + destruct cur as [|x cur]; [apply IH; constructor|].
      constructor; [|apply IH; constructor]. split.
      * intros E'. apply (f_equal (@length N)) in E'.
        rewrite length_rev in E'. discriminate.
      * unfold nonspace. apply Forall_rev. exact Hc.
    + apply IH. constructor; assumption.
Qed.

Lemma split_loop_Forall (P : N -> Prop) s cur :
  Forall P s -> Forall P cur -> Forall (Forall P) (split_loop s cur).
Proof.
  intros Hs. revert cur. induction Hs as [|c s Hc Hs IH]; intros cur Hcur; simpl.
  - destruct cur; [constructor|].
    constructor; [|constructor]. now apply Forall_rev.
  - destruct (isspace c).
    + destruct cur; [apply IH; constructor|].
      constructor; [now apply Forall_rev|apply IH; constructor].
    + apply IH. now constructor.
Qed.

(** Scanning over a stretch without white space extends the word. *)
Lemma split_loop_app w s cur :
  nonspace w -> split_loop (w ++ s) cur = split_loop s (rev w ++ cur).
Proof.
  intros Hw. revert cur. induction Hw as [|c w Hc Hw IH]; intros cur; simpl.
  - reflexivity.
  - rewrite Hc, IH. now rewrite <- app_assoc.
Qed.

Lemma py_split_join ws :
  Forall word ws -> py_split (py_join [32%N] ws) = ws.
Proof.
  unfold py_split. induction 1 as [|w ws [Hne Hw] Hws IH]; [reflexivity|].
  simpl. destruct ws as [|w' ws].
  - rewrite <- (app_nil_r w) at 1. rewrite split_loop_app by exact Hw.
    simpl. rewrite app_nil_r.
    destruct (rev w) eqn:E.
    + apply (f_equal (@rev N)) in E. rewrite rev_involutive in E. contradiction.
    + now rewrite <- E, rev_involutive.
  - rewrite split_loop_app by exact Hw. rewrite app_nil_r.
    change (([32%N] ++ py_join [32%N] (w' :: ws))) with (32%N :: py_join [32%N] (w' :: ws)).
    cbn [split_loop]. change (isspace 32) with true. cbv iota.
    destruct (rev w) eqn:E.
    + apply (f_equal (@rev N)) in E. rewrite rev_involutive in E. contradiction.
    + rewrite <- E, rev_involutive. f_equal. exact IH.
Qed.

Lemma py_join_Forall (P : N -> Prop) ws :
  P 32%N -> Forall (Forall P) ws -> Forall P (py_join [32%N] ws).
Proof.
  intros Hsp. induction 1 as [|w ws Hw Hws IH]; simpl; [constructor|].
  destruct ws; [exact Hw|].
  apply Forall_app. split; [exact Hw|]. constructor; assumption.
Qed.

Lemma filter_all (f : N -> bool) l :
  Forall (fun c => f c = true) l -> filter f l = l.
Proof.
  induction 1 as [|c l Hc Hl IH]; simpl; [reflexivity|].
  now rewrite Hc, IH.
Qed.

Lemma filter_Forall (f : N -> bool) l :
  Forall (fun c => f c = true) (filter f l).
Proof.
  induction l as [|c l IH]; simpl; [constructor|].
  destruct (f c) eqn:E; [constructor|]; assumption.
Qed.

(** Joining the words of a filtered text and filtering, splitting and
    joining again changes nothing, when the filter keeps the space. *)
Lemma clean_idempotent (keep : N -> bool) (t : str) :
  keep 32%N = true ->
  let once := py_join [32%N] (py_split (filter keep t)) in
  py_join [32%N] (py_split (filter keep once)) = once.
Proof.
  intros Hsp once.
  assert (Hk : Forall (fun c => keep c = true) once).
  { apply py_join_Forall; [exact Hsp|].
    apply split_loop_Forall; [apply filter_Forall|constructor]. }
  rewrite (filter_all _ Hk). unfold once.
  rewrite py_split_join; [reflexivity|].
  apply split_loop_word. constructor.
Qed.

End SplitJoin.

(** C6. The normaliser is idempotent: whatever the language setting
    and the cell, normalising the text it returned gives that text
    again; and a missing value (a float cell) normalises to the empty
    text. *)
Theorem normalize_text_idempotent
  (db : UnicodeDB) (language : str) (text : cell) :
  normalize_text language (CStr (normalize_text language text))
  = normalize_text language text
  /\ forall f, normalize_text language (CFloat f) = [].
Proof.
  split; [|reflexivity].
  assert (Hkeep : forall set, In isspace set ->
            negb (negated_set set 32%N) = true).
  { intros set Hin. unfold negated_set. rewrite negb_involutive.
    apply existsb_exists. exists isspace. split; [exact Hin|reflexivity]. }
  destruct text as [s|f|z|b];
    unfold normalize_text; cbn [str_of_cell]; unfold re_sub_delete;
    destruct (str_eqb language (lit "KR")); try reflexivity;
    apply clean_idempotent; apply Hkeep; simpl; tauto.
Qed.

Section Collapse.

Lemma split_loop_nonempty s x cur : split_loop s (x :: cur) <> [].
Proof.
  revert x cur. induction s as [|c s IH]; intros x cur; simpl.
  - discriminate.
  - destruct (isspace c); [discriminate|apply IH].
Qed.

(** The scanner of [str.split], joined with single spaces, is the
    collapsing transducer, state by state. *)
Lemma join_split_collapse s :
  (forall cur, cur <> [] ->
     py_join [32%N] (split_loop s cur) = rev cur ++ collapse s InWord)
  /\ py_join [32%N] (split_loop s []) = collapse s AtStart
  /\ collapse s AfterGap
     = match split_loop s [] with
       | [] => []
       | ws => 32%N :: py_join [32%N] ws
       end.
Proof.
  induction s as [|c s (IHw & IHs & IHg)].
  - repeat split; try reflexivity.
    intros [|x cur] H; [contradiction|]. simpl. now rewrite app_nil_r.
  - assert (Hw : forall cur, cur <> [] ->
              py_join [32%N] (split_loop (c :: s) cur)
              = rev cur ++ collapse (c :: s) InWord).
    { intros [|x cur] H; [contradiction|]. simpl.
      destruct (isspace c) eqn:E.
      - rewrite IHg. destruct (split_loop s []); simpl;
          [now rewrite app_nil_r|reflexivity].
      - rewrite IHw by discriminate. simpl. rewrite <- !app_assoc. reflexivity. }
    split; [exact Hw|]. split.
    + simpl. destruct (isspace c) eqn:E; [exact IHs|].
      rewrite IHw by discriminate. reflexivity.
    + simpl. destruct (isspace c) eqn:E; [exact IHg|].
      destruct (split_loop s [c]) eqn:E'.
      * now apply split_loop_nonempty in E'.
      * specialize (IHw [c] ltac:(discriminate)). rewrite E' in IHw.
        change (32%N :: c :: collapse s InWord = 32%N :: py_join [32%N] (s0 :: l)).
        now rewrite IHw.
Qed.

Lemma join_split_is_collapse s :
  py_join [32%N] (py_split s) = collapse_whitespace s.
Proof. apply join_split_collapse. Qed.

End Collapse.

Section AllowedSets.
Context {db : UnicodeDB} {F : UnicodeFacts db}.

Lemma in_range_alnum lo hi c :
  (lo <= hi)%N ->
  ((48 <= lo /\ hi <= 57) \/ (65 <= lo /\ hi <= 90) \/ (97 <= lo /\ hi <= 122)
   \/ (0xAC00 <= lo /\ hi <= 0xD7A3))%N ->
  in_range lo hi c = true -> isalnum c = true.
Proof.
  intros Hlh Hr H. unfold in_range in H.
  apply andb_true_iff in H. destruct H as [H1 H2]. apply N.leb_le in H1, H2.
  destruct Hr as [Hr|[Hr|[Hr|Hr]]].
  4: { apply isalnum_hangul. lia. }
  all: rewrite isalnum_ascii by lia;
    repeat match goal with
           | |- context [(?a <=? ?b)%N] => destruct (N.leb_spec a b)
           end; simpl; try reflexivity; lia.
Qed.

Lemma KR_SET_allowed c : negb (negated_set KR_SET c) = allowed c.
Proof.
  unfold negated_set, KR_SET, allowed, isword. rewrite negb_involutive. simpl.
  rewrite orb_false_r.
  destruct (in_range 44032 55203 c) eqn:E; [|now rewrite !orb_assoc].
  apply in_range_alnum in E; [|lia|lia]. now rewrite E.
Qed.

Lemma EN_SET_allowed c : negb (negated_set EN_SET c) = allowed c.
Proof.
  unfold negated_set, EN_SET, allowed, isword. rewrite negb_involutive. simpl.
  rewrite orb_false_r.
  destruct (in_range 97 122 c) eqn:E1;
    [apply in_range_alnum in E1; [|lia|lia]; now rewrite E1, ?orb_true_r|].
  destruct (in_range 65 90 c) eqn:E2;
    [apply in_range_alnum in E2; [|lia|lia]; now rewrite E2, ?orb_true_r|].
  destruct (in_range 48 57 c) eqn:E3;
    [apply in_range_alnum in E3; [|lia|lia]; now rewrite E3, ?orb_true_r|].
  simpl. now rewrite !orb_assoc.
Qed.

End AllowedSets.

(** C4 (as amended). A missing value (a float cell) gives the empty
    text.  Any other cell gives its text with every character outside
    the allowed set removed, the allowed set being the same in both
    locales: letters and digits of any script (the Hangul block among
    them), the underscore, white space and the punctuation [. , ! ?];
    then every run of white space is collapsed to one space, and the
    white space in front and at the end is dropped. *)
Theorem normalize_text_allowed_collapse
  (db : UnicodeDB) (F : UnicodeFacts db) (language : str) (text : cell) :
  normalize_text language text = spec_normalize text.
Proof.
  destruct text as [s|f|z|b]; try reflexivity;
    unfold normalize_text, spec_normalize, re_sub_delete;
    rewrite join_split_is_collapse;
    destruct (str_eqb language (lit "KR"));
    f_equal; apply filter_ext; intros c;
    first [apply KR_SET_allowed | apply EN_SET_allowed].
Qed.

(** A Korean-locale text with Latin letters, an underscore, a symbol
    and stray white space. *)
Lemma normalize_text_allowed_collapse_witness :
  normalize_text (db := ascii_hangul_db) (lit "KR")
    (CStr (lit "  ok_1,   " ++ [0xC548; 0xB155] ++ lit " #! "))%N
  = (lit "ok_1, " ++ [0xC548; 0xB155] ++ lit " !")%N
  /\ normalize_text (db := ascii_hangul_db) (lit "KR")
       (CStr (lit "  ok_1,   " ++ [0xC548; 0xB155] ++ lit " #! "))%N
     = spec_normalize (db := ascii_hangul_db)
         (CStr (lit "  ok_1,   " ++ [0xC548; 0xB155] ++ lit " #! "))%N.
Proof.
  split; [reflexivity|].
  apply (@normalize_text_allowed_collapse ascii_hangul_db ascii_hangul_facts).
Defined.

(** C4 as the specification words it fails in the Korean locale: the
    Latin letters of ["ok"] are outside the Hangul block and the basic
    punctuation, and the normaliser keeps them. *)
Lemma normalize_text_claimed_counterexample :
  normalize_text (db := ascii_hangul_db) (lit "KR") (CStr (lit "ok")) = lit "ok"
  /\ claimed_normalize (db := ascii_hangul_db) (lit "KR") (CStr (lit "ok")) = []
  /\ normalize_text (db := ascii_hangul_db) (lit "KR") (CStr (lit "ok"))
     <> claimed_normalize (db := ascii_hangul_db) (lit "KR") (CStr (lit "ok")).
Proof.
  repeat split; try reflexivity. vm_compute. discriminate.
Qed.

(** ** The completion call *)

Section CallFacts.
Variable srv : server.

(** A call posts its payload, leaves the output area alone, and its
    outcome depends on the earlier requests only. *)
Lemma call_lmstudio_run prompt st :
  call_lmstudio srv prompt st
  = (response_of srv (posted st) prompt,
     {| posted := posted st ++ [make_payload prompt];
        output_text := output_text st |}).
Proof.
  unfold response_of, call_lmstudio, bind, post. cbn [posted output_text].
  destruct (srv (posted st) (make_payload prompt)) as [msg|r]; [reflexivity|].
  destruct (http_error_msg r); [reflexivity|].
  destruct (body r) as [msg|data]; [reflexivity|].
  destruct (py_in (lit "choices") data) as [e|[|]]; try reflexivity.
  cbn [lift ret raise].
  destruct (getitem_str data (lit "choices")) as [e|choices]; [reflexivity|].
  cbn [lift ret raise].
  destruct (py_len choices) as [e|n]; [reflexivity|].
  cbn [lift ret raise].
  destruct (0 <? n)%nat; [|reflexivity].
  destruct (getitem_0 choices) as [e|first]; [reflexivity|].
  cbn [lift ret raise].
  destruct (getitem_str first (lit "text")); reflexivity.
Qed.

End CallFacts.





(** ** The pipeline *)

Section PipelineFacts.
Context {db : UnicodeDB} {rt : PyRuntime}.
Variable srv : server.
Variables language prompt_input : str.

(** One turn of the loop. *)
Lemma chunk_loop_cons all i idx reports ins st :
  chunk_loop srv language prompt_input all (i :: idx) reports ins st =
  let p := chunk_prompt language prompt_input (slice all i (i + chunk_size)) in
  let st1 := {| posted := posted st ++ [make_payload p];
                output_text := output_text st |} in
  match step_outcome (response_of srv (posted st) p) with
  | inr s => chunk_loop srv language prompt_input all idx (reports ++ [JStr s]) (ins ++ s ++ [10; 10]%N) st1
  | inl e => (inr None, {| posted := posted st1; output_text := chunk_error e |})
  end.
Proof.
  cbn [chunk_loop]. unfold bind, try. rewrite call_lmstudio_run.
  destruct (response_of srv (posted st) _) as [e|v]; [reflexivity|].
  destruct v; reflexivity.
Qed.

(** When the step fails on chunk [k] and on none before it, the loop
    stops there: [k + 1] requests were posted, the handler wrote the
    error, and the caller is told to return. *)
Lemma chunk_loop_fails all idx : forall k e reports ins st,
  k < length idx ->
  (forall j, j < k -> exists s, step_at srv (posted st) (prompts_at language prompt_input all idx) j = inr s) ->
  step_at srv (posted st) (prompts_at language prompt_input all idx) k = inl e ->
  chunk_loop srv language prompt_input all idx reports ins st
  = (inr None,
     {| posted := posted st ++ firstn (S k) (map make_payload (prompts_at language prompt_input all idx));
        output_text := chunk_error e |}).
Proof.
  induction idx as [|i idx IH]; intros k e reports ins st Hk Hok Hfail.
  - simpl in Hk. lia.
  - rewrite chunk_loop_cons. cbv zeta.
    destruct k as [|k].
    + unfold step_at in Hfail. cbn in Hfail. rewrite app_nil_r in Hfail.
      rewrite Hfail. reflexivity.
    + destruct (Hok 0 ltac:(lia)) as [s Hs].
      unfold step_at in Hs. cbn in Hs. rewrite app_nil_r in Hs.
      rewrite Hs.
      rewrite (IH k e); cbn [posted output_text].
      * f_equal. f_equal. cbn. now rewrite <- app_assoc.
      * simpl in Hk. lia.
      * intros j Hj. destruct (Hok (S j) ltac:(lia)) as [s' Hs'].
        exists s'. rewrite <- Hs'. unfold step_at. cbn.
        now rewrite <- app_assoc.
      * rewrite <- Hfail. unfold step_at. cbn. now rewrite <- app_assoc.
Qed.

(** When every step succeeds, the loop posts one request per chunk
    and hands over the texts returned, in order. *)
Lemma chunk_loop_succeeds all idx : forall reports ins st,
  (forall j, j < length idx -> exists s, step_at srv (posted st) (prompts_at language prompt_input all idx) j = inr s) ->
  exists texts,
    length texts = length idx
    /\ (forall j, j < length idx ->
          step_at srv (posted st) (prompts_at language prompt_input all idx) j = inr (nth j texts []))
    /\ chunk_loop srv language prompt_input all idx reports ins st
       = (inr (Some (reports ++ map JStr texts)),
          {| posted := posted st ++ map make_payload (prompts_at language prompt_input all idx);
             output_text := output_text st |}).
Proof.
  induction idx as [|i idx IH]; intros reports ins st Hok.
  - exists []. split; [reflexivity|]. split; [simpl; lia|].
    cbn. rewrite !app_nil_r. now destruct st.
  - destruct (Hok 0 ltac:(simpl; lia)) as [s Hs].
    pose proof Hs as Hs0.
    unfold step_at in Hs. cbn in Hs. rewrite app_nil_r in Hs.
    destruct (IH (reports ++ [JStr s]) (ins ++ s ++ [10; 10]%N)
                {| posted := posted st ++ [make_payload (chunk_prompt language prompt_input (slice all i (i + chunk_size)))];
                   output_text := output_text st |}) as (texts & Hlen & Hnth & Hrun).
    { intros j Hj. destruct (Hok (S j) ltac:(simpl; lia)) as [s' Hs'].
      exists s'. rewrite <- Hs'. unfold step_at. cbn.
      now rewrite <- app_assoc. }
    exists (s :: texts). split; [simpl; now rewrite Hlen|]. split.
    + intros [|j] Hj; [exact Hs0|].
      change (nth (S j) (s :: texts) []) with (nth j texts []).
      simpl in Hj. rewrite <- (Hnth j ltac:(lia)). unfold step_at. cbn.
      now rewrite <- app_assoc.
    + rewrite chunk_loop_cons. cbv zeta. rewrite Hs, Hrun.
      cbn. now rewrite <- !app_assoc.
Qed.

End PipelineFacts.

Section Runs.
Context {db : UnicodeDB} {rt : PyRuntime}.
Variable srv : server.
Variables language prompt_input : str.

Lemma prompts_at_range all :
  prompts_at language prompt_input all (py_range 0 (length all) chunk_size)
  = chunk_prompts language prompt_input all.
Proof. unfold prompts_at, chunk_prompts, chunks. now rewrite map_map. Qed.

Lemma run_unfold df all :
  df_column (lit "review") df = Some all ->
  run srv language prompt_input df
  = snd (let (r, st) := chunk_loop srv language prompt_input all
                          (py_range 0 (length all) chunk_size) [] [] initial in
         match r with
         | inr (Some chunk_reports) =>
             match response_of srv (posted st) (final_prompt chunk_reports) with
             | inr v =>
                 (inr tt,
                  {| posted := posted st ++ [make_payload (final_prompt chunk_reports)];
                     output_text := lit "Final Report:" ++ [10%N] ++ py_str v |})
             | inl e =>
                 (inr tt,
                  {| posted := posted st ++ [make_payload (final_prompt chunk_reports)];
                     output_text := lit "Error generating final report: " ++ str_of_exn e |})
             end
         | inr None => (inr tt, st)
         | inl e => (inl e, st)
         end).
Proof.
  intros H. unfold run, generate_insights. rewrite H. unfold bind.
  destruct (chunk_loop _ _ _ _ _ _ _ _) as [[e|[reports|]] st]; try reflexivity.
  unfold try. rewrite call_lmstudio_run.
  destruct (response_of _ _ _); reflexivity.
Qed.

End Runs.

(** C8 (as amended). In a run over a table with a review column: if
    the step on chunk [k] fails after the steps on the chunks before it
    succeeded, the requests posted are exactly those of chunks 0..k,
    the failing one once and last, with no request for a later chunk
    and none for the final report, and the output area shows the
    error.  The step fails when the call raises, and also when the call
    returns a value that is no text, on which [response + "\n\n"]
    raises.  If on every chunk the call returns a text, the requests
    posted are those of all the chunks, in order, followed by exactly
    one request, the final aggregation built from the chunk reports. *)
Theorem chunk_failure_aborts_pipeline
  (db : UnicodeDB) (rt : PyRuntime) (srv : server) (language prompt_input : str)
  (df : dataframe) (all_reviews : list cell) :
  df_column (lit "review") df = Some all_reviews ->
  let prompts := chunk_prompts language prompt_input all_reviews in
  let payloads := map make_payload prompts in
  let final := run srv language prompt_input df in
  (forall k e, k < length prompts ->
     (forall j, j < k -> exists s, step_at srv [] prompts j = inr s) ->
     step_at srv [] prompts k = inl e ->
     posted final = firstn (S k) payloads
     /\ output_text final = chunk_error e)
  /\ (forall k v, k < length prompts ->
        (forall j, j < k -> exists s, step_at srv [] prompts j = inr s) ->
        response_of srv (firstn k payloads) (nth k prompts []) = inr v ->
        (forall s, v <> JStr s) ->
        posted final = firstn (S k) payloads
        /\ output_text final = chunk_error (TypeError OpAdd v))
  /\ ((forall j, j < length prompts -> exists s, step_at srv [] prompts j = inr s) ->
      exists reports,
        length reports = length prompts
        /\ (forall j, j < length prompts ->
              step_at srv [] prompts j = inr (nth j reports []))
        /\ posted final
           = payloads ++ [make_payload (final_prompt (map JStr reports))]).
Proof.
  intros Hcol prompts payloads final.
  assert (Hfails : forall k e, k < length prompts ->
     (forall j, j < k -> exists s, step_at srv [] prompts j = inr s) ->
     step_at srv [] prompts k = inl e ->
     posted final = firstn (S k) payloads
     /\ output_text final = chunk_error e).
  { unfold final. rewrite (run_unfold _ _ _ _ Hcol).
    subst payloads prompts. rewrite <- prompts_at_range.
    intros k e Hk Hok Hfail.
    rewrite (@chunk_loop_fails _ _ srv language prompt_input all_reviews _ k e [] [] initial);
      [split; reflexivity| |exact Hok|exact Hfail].
    unfold prompts_at in Hk. now rewrite length_map in Hk. }
  split; [exact Hfails|]. split.
  - intros k v Hk Hok Hv Hnotext. apply Hfails; [exact Hk|exact Hok|].
    unfold step_at. cbn [app]. fold payloads. rewrite Hv.
    destruct v; try reflexivity. now contradiction (Hnotext s).
  - unfold final. rewrite (run_unfold _ _ _ _ Hcol).
    subst payloads prompts. rewrite <- prompts_at_range.
    intros Hok.
    destruct (@chunk_loop_succeeds _ _ srv language prompt_input all_reviews
                (py_range 0 (length all_reviews) chunk_size) [] [] initial)
      as (texts & Hlen & Hnth & Hrun).
    { intros j Hj. apply Hok. unfold prompts_at. now rewrite length_map. }
    exists texts. split; [unfold prompts_at; now rewrite length_map|]. split.
    + intros j Hj. apply Hnth. unfold prompts_at in Hj. now rewrite length_map in Hj.
    + rewrite Hrun. cbn [app].
      destruct (response_of _ _ _); reflexivity.
Qed.

(** 45 reviews against an endpoint whose second request fails: two
    requests are posted and the run ends on the error; against an
    endpoint that always answers, three chunk requests and the final
    one are posted. *)
Lemma chunk_failure_aborts_pipeline_witness :
  length (posted (run (db := ascii_hangul_db) (rt := plain_runtime)
                      second_call_fails (lit "EN") (lit "Summarise.") sample_df)) = 2
  /\ length (posted (run (db := ascii_hangul_db) (rt := plain_runtime)
                      (constant_server 200 sample_completion)
                      (lit "EN") (lit "Summarise.") sample_df)) = 4.
Proof.
  split.
  - destruct (@chunk_failure_aborts_pipeline ascii_hangul_db plain_runtime
                second_call_fails (lit "EN") (lit "Summarise.") sample_df
                (repeat (CStr (lit "good  app!")) 45) eq_refl) as [Hfail _].
    destruct (Hfail 1 (request_failed (lit "connection refused"))) as [Hp _].
    + vm_compute. lia.
    + intros j Hj. assert (j = 0) as -> by lia. eexists. reflexivity.
    + reflexivity.
    + rewrite Hp. reflexivity.
  - destruct (@chunk_failure_aborts_pipeline ascii_hangul_db plain_runtime
                (constant_server 200 sample_completion) (lit "EN")
                (lit "Summarise.") sample_df
                (repeat (CStr (lit "good  app!")) 45) eq_refl) as (_ & _ & Hok).
    destruct Hok as (reports & Hlen & _ & Hp).
    + intros j _. eexists. reflexivity.
    + rewrite Hp, length_app, length_map. reflexivity.
Defined.

(** C8 as the specification words it fails against an endpoint whose
    every response is well formed with the number 5 as the generated
    content: every chunk call succeeds, it returns 5, and yet of the
    three chunks of 45 reviews only the first is requested, no final
    aggregation call is made, and the output area shows an error. *)
Lemma chunk_failure_claimed_counterexample :
  (forall history prompt,
     response_of (constant_server 200 number_completion) history prompt
     = inr (JInt 5))
  /\ length (chunk_prompts (db := ascii_hangul_db) (rt := plain_runtime)
               (lit "EN") (lit "Summarise.")
               (repeat (CStr (lit "good  app!")) 45)) = 3
  /\ length (posted (run (db := ascii_hangul_db) (rt := plain_runtime)
                         (constant_server 200 number_completion)
                         (lit "EN") (lit "Summarise.") sample_df)) = 1
  /\ output_text (run (db := ascii_hangul_db) (rt := plain_runtime)
                      (constant_server 200 number_completion)
                      (lit "EN") (lit "Summarise.") sample_df)
     = chunk_error (rt := plain_runtime) (TypeError OpAdd (JInt 5)).
Proof.
  split; [intros history prompt; reflexivity|].
  split; [reflexivity|]. split; reflexivity.
Qed.

(** C10. A table whose review column has no rows gives no chunk and no
    chunk request: the requests posted are exactly one, the final
    aggregation, whose prompt ends in [Reports: []], the empty list of
    chunk reports; when that call returns, the output area shows
    [Final Report:], a line break and the value returned. *)
Theorem empty_review_column_one_final_call
  (db : UnicodeDB) (rt : PyRuntime) (srv : server) (language prompt_input : str)
  (df : dataframe) :
  df_column (lit "review") df = Some [] ->
  let final := run srv language prompt_input df in
  chunk_prompts language prompt_input [] = []
  /\ posted final = [make_payload (final_prompt [])]
  /\ final_prompt []
     = lit "Combine the following UI/UX reports from Google Play Store review analysis into a single, concise list of actionable insights.  Prioritize the most important issues (maximum 5). Remove redundant information. I do NOT want code or rambling in the response."
       ++ [10%N] ++ lit "        Reports: []"
  /\ (forall v, response_of srv [] (final_prompt []) = inr v ->
        output_text final = lit "Final Report:" ++ [10%N] ++ py_str v).
Proof.
  intros Hcol final. unfold final. rewrite (run_unfold _ _ _ _ Hcol).
  cbn [length py_range range_loop chunk_loop ret initial posted].
  split; [reflexivity|]. split; [|split; [reflexivity|]].
  - destruct (response_of _ _ _); reflexivity.
  - intros v Hv. rewrite Hv. reflexivity.
Qed.

(** The empty table against an endpoint that answers. *)
Lemma empty_review_column_one_final_call_witness :
  output_text (run (db := ascii_hangul_db) (rt := plain_runtime)
                   (constant_server 200 sample_completion)
                   (lit "EN") (lit "Summarise.") empty_df)
  = lit "Final Report:" ++ [10%N] ++ lit "fine".
Proof.
  destruct (@empty_review_column_one_final_call ascii_hangul_db plain_runtime
              (constant_server 200 sample_completion) (lit "EN") (lit "Summarise.")
              empty_df eq_refl) as (_ & _ & _ & Hout).
  apply (Hout (JStr (lit "fine"))). reflexivity.
Defined.

(** ** Matching *)

Section RegexFacts.
Context {R : Type}.
Implicit Types (k : str -> captures -> option R) (s w : str).

Lemma rmatch_text_app w s cs k :
  rmatch (text w) (w ++ s) cs k = k s cs.
Proof.
  induction w as [|c w IH]; simpl; [reflexivity|].
  now rewrite N.eqb_refl.
Qed.

Lemma rmatch_text_inv w s cs k (r : R) :
  rmatch (text w) s cs k = Some r ->
  exists s', s = w ++ s' /\ k s' cs = Some r.
Proof.
  revert s. induction w as [|c w IH]; intros s H; simpl in H.
  - now exists s.
  - destruct s as [|x s]; [discriminate|].
    destruct (N.eqb_spec x c) as [->|]; [|discriminate].
    destruct (IH _ H) as (s' & -> & Hk). now exists s'.
Qed.

Lemma plus_loop_max p w s (h : str -> option R) r :
  Forall (fun c => p c = true) w ->
  match s with [] => True | c :: _ => p c = false end ->
  h s = Some r ->
  plus_loop p (w ++ s) h = Some r.
Proof.
  intros Hw Hs Hh. induction Hw as [|c w Hc Hw IH]; simpl.
  - destruct s as [|c s]; [exact Hh|]. simpl. now rewrite Hs.
  - now rewrite Hc, IH.
Qed.

Lemma plus_loop_inv p s (h : str -> option R) r :
  plus_loop p s h = Some r ->
  exists w s', s = w ++ s' /\ Forall (fun c => p c = true) w /\ h s' = Some r.
Proof.
  induction s as [|c s IH]; simpl; intros H.
  - exists [], []. auto.
  - destruct (p c) eqn:Hc.
    + destruct (plus_loop p s h) as [r'|] eqn:E.
      * injection H as ->. destruct (IH eq_refl) as (w & s' & -> & Hw & Hh).
        exists (c :: w), s'. repeat split; [constructor|]; assumption.
      * exists [], (c :: s). auto.
    + exists [], (c :: s). auto.
Qed.

End RegexFacts.

Lemma firstn_app_sub (w t : str) :
  firstn (length (w ++ t) - length t) (w ++ t) = w.
Proof.
  rewrite length_app, Nat.add_sub. rewrite firstn_app, Nat.sub_diag.
  rewrite firstn_all. simpl. apply app_nil_r.
Qed.

Lemma re_search_ext r1 r2 :
  (forall s, re_match r1 s = re_match r2 s) ->
  forall s, re_search r1 s = re_search r2 s.
Proof.
  intros H s. induction s as [|c s IH]; simpl; rewrite H; [reflexivity|].
  now rewrite IH.
Qed.

(** A search finds a match at some position of the text ... *)
Lemma re_search_sound r s m :
  re_search r s = Some m ->
  exists pre s', s = pre ++ s' /\ re_match r s' = Some m
    /\ forall a b, pre = a ++ b -> b <> [] -> re_match r (b ++ s') = None.
Proof.
  induction s as [|c s IH]; simpl.
  - destruct (re_match r []) eqn:E; [|discriminate].
    intros [= <-]. exists [], []. repeat split; [exact E|].
    intros a b Hab. destruct a, b; try discriminate. congruence.
  - destruct (re_match r (c :: s)) eqn:E.
    + intros [= <-]. exists [], (c :: s). repeat split; [exact E|].
      intros a b Hab. destruct a, b; try discriminate. congruence.
    + intros H. destruct (IH H) as (pre & s' & -> & Hm & Hnone).
      exists (c :: pre), s'. repeat split; [exact Hm|].
      intros [|x a] b Hab Hb.
      * simpl in Hab. subst b. exact E.
      * injection Hab as -> ->. exact (Hnone a b eq_refl Hb).
Qed.


Lemma re_search_first r pre s m :
  re_match r s = Some m ->
  (forall a b, pre = a ++ b -> b <> [] -> re_match r (b ++ s) = None) ->
  re_search r (pre ++ s) = Some m.
Proof.
  intros Hm. induction pre as [|c pre IH]; intros Hnone.
  - simpl. destruct s; simpl; now rewrite Hm.
  - pose proof (Hnone [] (c :: pre) eq_refl ltac:(discriminate)) as E.
    simpl in E. simpl. rewrite E.
    apply IH. intros a b -> Hb. now apply (Hnone (c :: a) b).
Qed.

(** ** Numerals *)

Section NumeralFacts.
Context {db : UnicodeDB}.

Lemma isdecimal_true c : isdecimal c = true <-> exists v, decimal c = Some v.
Proof.
  unfold isdecimal. destruct (decimal c) as [v|]; split; try easy.
  - intros _. now exists v.
  - intros [v H]. discriminate.
Qed.

Lemma digits_value_snoc ds : forall acc n c v,
  digits_value acc ds = Some n -> decimal c = Some v ->
  digits_value acc (ds ++ [c]) = Some (n * 10 + v)%N.
Proof.
  induction ds as [|x ds IH]; intros acc n c v H Hc; simpl in *.
  - injection H as <-. now rewrite Hc.
  - destruct (decimal x); [|discriminate]. now apply IH.
Qed.

Lemma numeral_value ds n :
  numeral ds n ->
  ds <> [] /\ Forall (fun c => isdecimal c = true) ds
  /\ digits_value 0 ds = Some n.
Proof.
  induction 1 as [c v Hc|ds n c v Hn (Hne & Hall & Hv) Hc].
  - repeat split; [discriminate| |simpl; now rewrite Hc].
    constructor; [|constructor]. apply isdecimal_true. now exists v.
  - repeat split.
    + now destruct ds.
    + apply Forall_app. split; [exact Hall|].
      constructor; [|constructor]. apply isdecimal_true. now exists v.
    + rewrite (@digits_value_snoc ds 0%N n c v Hv Hc). f_equal. lia.
Qed.

Lemma numeral_exists ds :
  ds <> [] -> Forall (fun c => isdecimal c = true) ds -> exists n, numeral ds n.
Proof.
  induction ds as [|c ds IH] using rev_ind; [easy|].
  intros _ Hall. apply Forall_app in Hall. destruct Hall as [Hds Hc].
  inversion Hc as [|? ? Hc' _]; subst.
  apply isdecimal_true in Hc'. destruct Hc' as [v Hv].
  destruct ds as [|x ds].
  - exists v. now constructor.
  - destruct IH as [n Hn]; [discriminate|exact Hds|].
    exists (10 * n + v)%N. now constructor.
Qed.

Context {F : UnicodeFacts db}.

Lemma isdecimal_nonspace c : isdecimal c = true -> isspace c = false.
Proof.
  intros H. destruct (isspace c) eqn:E; [|reflexivity].
  apply decimal_space in E. unfold isdecimal in H. now rewrite E in H.
Qed.

Lemma lstrip_nonspace s : nonspace s -> lstrip s = s.
Proof. intros H. destruct H as [|c s Hc Hs]; simpl; [reflexivity|now rewrite Hc]. Qed.

Lemma strip_nonspace s : nonspace s -> strip s = s.
Proof.
  intros H. unfold strip, rstrip. rewrite (lstrip_nonspace H).
  rewrite lstrip_nonspace; [apply rev_involutive|].
  unfold nonspace. now apply Forall_rev.
Qed.

(** [int] reads a numeral as the number it denotes, and refuses it
    when it is too long. *)
Lemma py_int_digits ds n :
  numeral ds n ->
  py_int ds = if length ds <=? int_max_str_digits then Some n else None.
Proof.
  intros H. destruct (numeral_value H) as (Hne & Hall & Hv).
  unfold py_int. rewrite strip_nonspace.
  - destruct ds; [contradiction|]. now rewrite Hv.
  - eapply Forall_impl; [|exact Hall]. intros c. apply isdecimal_nonspace.
Qed.

Lemma py_int_numeral ds n :
  numeral ds n -> length ds <= int_max_str_digits -> py_int ds = Some n.
Proof.
  intros H Hlen. rewrite (py_int_digits H).
  now destruct (Nat.leb_spec (length ds) int_max_str_digits); [|lia].
Qed.

Lemma py_int_too_long ds n :
  numeral ds n -> int_max_str_digits < length ds -> py_int ds = None.
Proof.
  intros H Hlen. rewrite (py_int_digits H).
  now destruct (Nat.leb_spec (length ds) int_max_str_digits); [lia|].
Qed.

End NumeralFacts.

(** ** The rating pattern *)

Section RatingFacts.
Context {db : UnicodeDB}.

Lemma match_numeral_between pre post ds t :
  ds <> [] -> Forall (fun c => isdecimal c = true) ds ->
  match post with [] => False | c :: _ => isdecimal c = false end ->
  re_match (numeral_between pre post) (pre ++ ds ++ post ++ t)
  = Some (t, [(1, ds)]).
Proof.
  intros Hne Hall Hpost. unfold re_match, numeral_between. cbn [rmatch].
  rewrite rmatch_text_app.
  destruct ds as [|x ds]; [contradiction|].
  inversion Hall as [|? ? Hx Hds]; subst.
  cbn [app]. rewrite Hx.
  apply plus_loop_max; [exact Hds| |].
  - destruct post as [|c post]; [contradiction|exact Hpost].
  - change (x :: ds ++ post ++ t) with ((x :: ds) ++ post ++ t).
    rewrite firstn_app_sub. now rewrite rmatch_text_app.
Qed.

Lemma match_numeral_between_inv pre post s t cs :
  re_match (numeral_between pre post) s = Some (t, cs) ->
  exists ds, s = pre ++ ds ++ post ++ t /\ ds <> []
    /\ Forall (fun c => isdecimal c = true) ds /\ cs = [(1, ds)].
Proof.
  unfold re_match, numeral_between. cbn [rmatch]. intros H.
  apply rmatch_text_inv in H. destruct H as (s1 & -> & H).
  destruct s1 as [|x s1]; [discriminate|].
  destruct (isdecimal x) eqn:Hx; [|discriminate].
  apply plus_loop_inv in H. destruct H as (w & s2 & -> & Hw & H).
  apply rmatch_text_inv in H. destruct H as (t' & -> & H).
  change (x :: w ++ post ++ t') with ((x :: w) ++ post ++ t') in H.
  rewrite firstn_app_sub in H. injection H as -> <-.
  exists (x :: w). repeat split; [discriminate|now constructor].
Qed.

Lemma rating_regex is_kr s :
  re_match (if is_kr : bool then RATING_KR else RATING_EN) s
  = re_match (numeral_between (rating_prefix is_kr) (rating_suffix is_kr)) s.
Proof. destruct is_kr; reflexivity. Qed.

Context {F : UnicodeFacts db}.

Lemma rating_suffix_head is_kr :
  match rating_suffix is_kr with
  | [] => False
  | c :: _ => isdecimal c = false
  end.
Proof.
  destruct is_kr; simpl; unfold isdecimal.
  - now rewrite decimal_hangul by lia.
  - now rewrite decimal_ascii by lia.
Qed.

End RatingFacts.

Section RatingParsing.
Context {db : UnicodeDB} {F : UnicodeFacts db}.

Lemma parse_rating_search is_kr label :
  parse_rating is_kr label
  = match re_search (numeral_between (rating_prefix is_kr) (rating_suffix is_kr)) label with
    | Some (_, cs) =>
        match group 1 cs with
        | Some g => match py_int g with Some n => Some (Some n) | None => None end
        | None => None
        end
    | None => Some None
    end.
Proof.
  unfold parse_rating.
  rewrite (re_search_ext _ _ (rating_regex is_kr)).
  destruct (re_search _ label) as [[t cs]|]; [|reflexivity].
  unfold obind. destruct (group 1 cs); [|reflexivity].
  destruct (py_int s); reflexivity.
Qed.

(** Where the label holds a rating text, the pattern matches. *)
Lemma rating_at_match is_kr label pre ds n :
  numeral ds n -> rating_at is_kr label pre ds ->
  exists s suf, label = pre ++ s
    /\ re_match (numeral_between (rating_prefix is_kr) (rating_suffix is_kr)) s
       = Some (suf, [(1, ds)]).
Proof.
  intros Hn [suf ->]. destruct (numeral_value Hn) as (Hne & Hall & _).
  eexists _, suf. split; [reflexivity|].
  apply match_numeral_between; [exact Hne|exact Hall|apply rating_suffix_head].
Qed.

Lemma split_earlier (pre pre' s s' : str) :
  pre ++ s = pre' ++ s' -> length pre' < length pre ->
  exists b, b <> [] /\ pre = pre' ++ b /\ s' = b ++ s.
Proof.
  intros E Hlen. apply app_eq_app in E. destruct E as [b [[-> ->]|[-> ->]]].
  - exists b. repeat split. intros ->. rewrite app_nil_r in Hlen. lia.
  - rewrite length_app in Hlen. lia.
Qed.

(** The rating text that [re.search] finds is the leftmost one. *)
Lemma parse_rating_found is_kr label t cs :
  re_search (numeral_between (rating_prefix is_kr) (rating_suffix is_kr)) label
  = Some (t, cs) ->
  exists pre ds n,
    leftmost_rating is_kr label pre ds /\ numeral ds n /\ cs = [(1, ds)].
Proof.
  intros E.
  apply re_search_sound in E. destruct E as (pre & s' & -> & Hm & Hnone).
  pose proof Hm as Hm'.
  apply match_numeral_between_inv in Hm'.
  destruct Hm' as (ds & -> & Hne & Hall & ->).
  destruct (numeral_exists Hne Hall) as [n0 Hn0].
  exists pre, ds, n0. split; [|split; [exact Hn0|reflexivity]].
  split; [now exists t|].
  intros pre' ds' n' Hn' Hat.
  destruct (Nat.le_gt_cases (length pre) (length pre')) as [|Hlt]; [assumption|].
  exfalso.
  destruct (rating_at_match Hn' Hat) as (s & suf & Hs & Hms).
  destruct (split_earlier _ _ _ _ Hs Hlt) as (b & Hb & Hpre & Hs').
  rewrite Hs', (Hnone pre' b Hpre Hb) in Hms.
  discriminate.
Qed.

(** The parse of a label with a rating text: what [int] makes of the
    numeral of the leftmost one. *)
Lemma parse_rating_leftmost is_kr label pre ds n :
  leftmost_rating is_kr label pre ds -> numeral ds n ->
  parse_rating is_kr label
  = if length ds <=? int_max_str_digits then Some (Some n) else None.
Proof.
  intros [Hat Hleft] Hn. rewrite parse_rating_search.
  destruct (rating_at_match Hn Hat) as (s & suf & -> & Hm).
  rewrite (@re_search_first _ pre _ _ Hm).
  - cbn [group Nat.eqb]. rewrite (py_int_digits Hn).
    now destruct (length ds <=? int_max_str_digits).
  - intros a b -> Hb.
    destruct (re_match _ (b ++ s)) as [[t cs]|] eqn:E; [|reflexivity].
    exfalso. apply match_numeral_between_inv in E.
    destruct E as (ds' & E & Hne & Hall & _).
    destruct (numeral_exists Hne Hall) as [n' Hn'].
    assert (Hat' : rating_at is_kr ((a ++ b) ++ s) a ds').
    { exists t. rewrite <- app_assoc. now rewrite E. }
    specialize (Hleft a ds' n' Hn' Hat'). rewrite length_app in Hleft.
    destruct b; [contradiction|simpl in Hleft; lia].
Qed.



(** The parse raises exactly on a rating text whose numeral [int]
    refuses. *)
Lemma parse_rating_raises is_kr label :
  parse_rating is_kr label = None <->
  exists pre ds n,
    leftmost_rating is_kr label pre ds /\ numeral ds n
    /\ int_max_str_digits < length ds.
Proof.
  split.
  - rewrite parse_rating_search.
    destruct (re_search _ label) as [[t cs]|] eqn:E; [|discriminate].
    destruct (parse_rating_found _ _ E) as (pre & ds & n0 & Hleft & Hn0 & ->).
    cbn [group Nat.eqb]. rewrite (py_int_digits Hn0).
    destruct (Nat.leb_spec (length ds) int_max_str_digits); [discriminate|].
    intros _. now exists pre, ds, n0.
  - intros (pre & ds & n & Hleft & Hn & Hlen).
    rewrite (parse_rating_leftmost Hleft Hn).
    now destruct (Nat.leb_spec (length ds) int_max_str_digits); [lia|].
Qed.

End RatingParsing.

(** ** Rows and the elements they come from *)

Section RowFacts.
Context {db : UnicodeDB}.

Lemma In_sorted_by_date r l : In r (sorted_by_date l) <-> In r l.
Proof.
  destruct (sorted_by_date_spec l) as (_ & Hp & _). split; intros H.
  - eapply Permutation_in; [apply Permutation_sym; exact Hp|exact H].
  - eapply Permutation_in; [exact Hp|exact H].
Qed.

Lemma In_extracted is_kr r es :
  In r (extracted is_kr es) <-> exists e, In e es /\ extract_one is_kr e = Some r.
Proof.
  induction es as [|e es IH]; simpl.
  - split; [easy|]. now intros (e & [] & _).
  - destruct (extract_one is_kr e) as [r'|] eqn:E; simpl; rewrite IH; split.
    + intros [->|(e' & Hin & He')]; [exists e; auto|exists e'; auto].
    + intros (e' & [->|Hin] & He'); [left; congruence|right; now exists e'].
    + intros (e' & Hin & He'). exists e'; auto.
    + intros (e' & [->|Hin] & He'); [congruence|now exists e'].
Qed.

(** What a row says of the element it was read from. *)
Lemma extract_one_inv is_kr e r :
  extract_one is_kr e = Some r ->
  exists t mt label dt,
    body_text e = Some t /\ meta e = Some mt
    /\ aria_label mt = Some (Some label) /\ date_text mt = Some dt
    /\ review r = strip t
    /\ parse_rating is_kr label = Some (rating r)
    /\ parse_date is_kr (strip dt) = Some (date r).
Proof.
  unfold extract_one, obind.
  destruct (body_text e) as [t|] eqn:Et; [|discriminate].
  destruct (meta e) as [mt|] eqn:Em; [|discriminate].
  destruct (aria_label mt) as [[label|]|] eqn:El; try discriminate.
  destruct (parse_rating is_kr label) as [rt|] eqn:Er; [|discriminate].
  destruct (date_text mt) as [dt|] eqn:Ed; [|discriminate].
  destruct (parse_date is_kr (strip dt)) as [d|] eqn:Ep; [|discriminate].
  intros [= <-]. exists t, mt, label, dt. repeat split; assumption.
Qed.

Lemma persisted_row_inv is_kr pg rows r :
  extract_reviews is_kr pg = Some rows -> In r rows ->
  exists e, In e (reviews pg) /\ extract_one is_kr e = Some r.
Proof.
  unfold extract_reviews. destruct (3 <=? arrow_icons pg)%nat; [|discriminate].
  intros [= <-] Hin. apply (proj1 (In_sorted_by_date _ _)) in Hin.
  apply (proj1 (In_extracted _ _ _)) in Hin. exact Hin.
Qed.

End RowFacts.




(** ** Dates *)

(** Checking a property of the numbers below a bound one by one. *)
Lemma all_below_spec (P : N -> bool) (fuel : nat) : forall start,
  all_below P fuel start = true ->
  forall y, (start <= y < start + N.of_nat fuel)%N -> P y = true.
Proof.
  induction fuel as [|fuel IH]; intros start H y Hy; [lia|].
  simpl in H. apply andb_true_iff in H. destruct H as [H0 H].
  destruct (N.eq_dec y start) as [->|Hne]; [exact H0|].
  apply (IH (N.succ start) H). lia.
Qed.

Lemma below_forallb (P : N -> bool) (b : nat) :
  all_below P b 0 = true ->
  forall y, (y < N.of_nat b)%N -> P y = true.
Proof. intros H y Hy. apply (@all_below_spec P b 0%N H). lia. Qed.

Lemma str_eqb_eq a b : str_eqb a b = true -> a = b.
Proof. unfold str_eqb. now destruct (list_eq_dec N.eq_dec a b). Qed.


Lemma format_0d_two m : (m < 100)%N -> format_0d 2 m = two_digits m.
Proof.
  intros H. apply str_eqb_eq.
  apply (below_forallb (fun y => str_eqb (format_0d 2 y) (two_digits y)) 100);
    [vm_compute; reflexivity|exact H].
Qed.


Lemma str_of_N_length_four y : (y < 10000)%N -> length (str_of_N y) <= 4.
Proof.
  intros H. apply Nat.leb_le.
  apply (below_forallb (fun y => length (str_of_N y) <=? 4) 10000);
    [vm_compute; reflexivity|exact H].
Qed.

Lemma str_of_N_four y : (1000 <= y < 10000)%N -> str_of_N y = four_digits y.
Proof.
  intros [Hlo Hhi].
  assert (H : ((y <? 1000)%N || str_eqb (str_of_N y) (four_digits y)) = true).
  { apply (below_forallb
             (fun y => (y <? 1000)%N || str_eqb (str_of_N y) (four_digits y)) 10000);
      [vm_compute; reflexivity|exact Hhi]. }
  destruct (N.ltb_spec y 1000); [lia|]. now apply str_eqb_eq.
Qed.

(** The conversion writes a number below 10000. *)
Lemma py_format_0d_small width y :
  (y < 10000)%N -> py_format_0d width y = Some (format_0d width y).
Proof.
  intros H. unfold py_format_0d.
  pose proof (str_of_N_length_four H) as Hlen.
  destruct (Nat.leb_spec (length (str_of_N y)) int_max_str_digits) as [|Hgt];
    [reflexivity|].
  unfold int_max_str_digits in Hgt. lia.
Qed.


Section FindallFacts.
Context {db : UnicodeDB}.

Lemma findall_skip r w s :
  findall_loop r (w ++ s) (length w) = findall_loop r s 0.
Proof.
  induction w as [|c w IH]; simpl; [|exact IH].
  reflexivity.
Qed.

(** Characters that are not digits hold no match of [\d+]. *)
Lemma findall_nodigit t s :
  nodigit t ->
  findall_loop (Plus isdecimal) (t ++ s) 0 = findall_loop (Plus isdecimal) s 0.
Proof.
  induction 1 as [|c t Hc Ht IH]; [reflexivity|].
  simpl. unfold re_match. cbn [rmatch]. now rewrite Hc.
Qed.

(** A maximal run of digits is the next match. *)
Lemma findall_numeral ds s :
  ds <> [] -> Forall (fun c => isdecimal c = true) ds ->
  match s with [] => True | c :: _ => isdecimal c = false end ->
  findall_loop (Plus isdecimal) (ds ++ s) 0
  = ds :: findall_loop (Plus isdecimal) s 0.
Proof.
  intros Hne Hall Hs. destruct ds as [|x ds]; [contradiction|].
  inversion Hall as [|? ? Hx Hds]; subst.
  cbn [app findall_loop]. unfold re_match. cbn [rmatch]. rewrite Hx.
  erewrite plus_loop_max; [|exact Hds|exact Hs|reflexivity]. cbv iota beta.
  change (x :: ds ++ s) with ((x :: ds) ++ s). rewrite firstn_app_sub.
  f_equal. replace (length (x :: ds) - 1) with (length ds) by (simpl; lia).
  apply findall_skip.
Qed.

Lemma nodigit_head t s :
  t <> [] -> nodigit t ->
  match t ++ s with [] => True | c :: _ => isdecimal c = false end.
Proof. intros Hne Ht. destruct Ht; [contradiction|assumption]. Qed.

Lemma findall_korean_date text Y M D y m d :
  korean_date text Y M D -> numeral Y y -> numeral M m -> numeral D d ->
  exists rest, re_findall (Plus isdecimal) text = Y :: M :: D :: rest.
Proof.
  intros (t0 & t1 & t2 & t3 & -> & H0 & N1 & H1 & N2 & H2 & H3) HY HM HD.
  destruct (numeral_value HY) as (Yne & Yall & _).
  destruct (numeral_value HM) as (Mne & Mall & _).
  destruct (numeral_value HD) as (Dne & Dall & _).
  eexists. unfold re_findall.
  rewrite (findall_nodigit _ H0).
  rewrite (findall_numeral _ Yne Yall) by now apply nodigit_head.
  rewrite (findall_nodigit _ H1).
  rewrite (findall_numeral _ Mne Mall) by now apply nodigit_head.
  rewrite (findall_nodigit _ H2).
  rewrite (findall_numeral _ Dne Dall) by exact H3.
  reflexivity.
Qed.

(** A text begins with a stretch without digits, and what follows
    it, if anything, begins with a digit; likewise for a run of
    digits. *)
Lemma span_nodigit s :
  exists t rest,
    s = t ++ rest /\ nodigit t
    /\ match rest with [] => True | c :: _ => isdecimal c = true end.
Proof.
  induction s as [|c s IH]; [exists [], []; repeat split; constructor|].
  destruct (isdecimal c) eqn:E.
  - exists [], (c :: s). repeat split; [constructor|exact E].
  - destruct IH as (t & rest & -> & Ht & Hr).
    exists (c :: t), rest. repeat split; [now constructor|exact Hr].
Qed.

Lemma span_digits s :
  exists ds rest,
    s = ds ++ rest /\ Forall (fun c => isdecimal c = true) ds
    /\ match rest with [] => True | c :: _ => isdecimal c = false end.
Proof.
  induction s as [|c s IH]; [exists [], []; repeat split; constructor|].
  destruct (isdecimal c) eqn:E.
  - destruct IH as (ds & rest & -> & Hds & Hr).
    exists (c :: ds), rest. repeat split; [now constructor|exact Hr].
  - exists [], (c :: s). repeat split; [constructor|exact E].
Qed.

(** What [re.findall(r'\d+', text)] returns are the numerals of the
    text, and nothing else is. *)
Lemma findall_digit_runs text :
  digit_runs text (re_findall (Plus isdecimal) text).
Proof.
  unfold re_findall.
  remember (length text) as n eqn:Hn.
  assert (Hlen : length text <= n) by lia. clear Hn.
  revert text Hlen. induction n as [|n IH]; intros text Hlen.
  - destruct text; [|simpl in Hlen; lia]. apply runs_none. constructor.
  - destruct (span_nodigit text) as (t & rest & -> & Ht & Hr).
    rewrite (findall_nodigit _ Ht).
    destruct rest as [|c r].
    + rewrite app_nil_r. now apply runs_none.
    + destruct (span_digits r) as (ds & s' & -> & Hds & Hs').
      change (c :: ds ++ s') with ((c :: ds) ++ s').
      rewrite findall_numeral; [|discriminate|now constructor|exact Hs'].
      apply runs_next; [exact Ht|discriminate|now constructor|exact Hs'|].
      apply IH. rewrite length_app in Hlen. cbn [length] in Hlen.
      rewrite length_app in Hlen. lia.
Qed.

Lemma digit_runs_findall text rs :
  digit_runs text rs -> re_findall (Plus isdecimal) text = rs.
Proof.
  unfold re_findall. induction 1 as [t Ht|t0 ds s rs Ht0 Hne Hds Hs _ IH].
  - rewrite <- (app_nil_r t). now rewrite (findall_nodigit _ Ht).
  - rewrite (findall_nodigit _ Ht0), (findall_numeral _ Hne Hds Hs). now rewrite IH.
Qed.

(** A text with three numerals or more is a date in the Korean way
    of writing. *)
Lemma digit_runs_korean text Y M D rest :
  digit_runs text (Y :: M :: D :: rest) -> korean_date text Y M D.
Proof.
  intros H.
  inversion H as [|t0 ? s1 ? Ht0 _ _ Hs1 H1]; subst.
  inversion H1 as [|t1 ? s2 ? Ht1 HMne HM Hs2 H2]; subst.
  inversion H2 as [|t2 ? s3 ? Ht2 HDne HD Hs3 _]; subst.
  exists t0, t1, t2, s3. split; [reflexivity|]. split; [exact Ht0|].
  split; [|split; [exact Ht1|]].
  { intros ->. destruct M as [|c M]; [contradiction|].
    inversion HM as [|? ? Hc _]; subst. simpl in Hs1. congruence. }
  split; [|split; [exact Ht2|exact Hs3]].
  intros ->. destruct D as [|c D]; [contradiction|].
  inversion HD as [|? ? Hc _]; subst. simpl in Hs2. congruence.
Qed.

Lemma digit_runs_numerals text rs :
  digit_runs text rs -> Forall (fun w => exists n, numeral w n) rs.
Proof.
  induction 1 as [|t0 ds s rs _ Hne Hds _ _ IH]; constructor; [|exact IH].
  now apply numeral_exists.
Qed.

End FindallFacts.

(** *** Digits *)

Lemma four_digits_value y :
  (y < 10000)%N ->
  (10 * (10 * (10 * ((y / 1000) mod 10) + (y / 100) mod 10) + (y / 10) mod 10)
   + y mod 10 = y)%N.
Proof.
  intros H. zify. Z.to_euclidean_division_equations. lia.
Qed.

Lemma str_of_N_small d :
  (d < 100)%N ->
  str_of_N d = if (d <? 10)%N then [digit d] else two_digits d.
Proof.
  intros H. apply str_eqb_eq.
  apply (below_forallb
           (fun d => str_eqb (str_of_N d)
                       (if (d <? 10)%N then [digit d] else two_digits d)) 100);
    [vm_compute; reflexivity|exact H].
Qed.

Section DigitFacts.
Context {db : UnicodeDB} {F : UnicodeFacts db}.

Lemma decimal_digit n : decimal (digit n) = Some (n mod 10)%N.
Proof.
  unfold digit. generalize (N.mod_upper_bound n 10 ltac:(lia)).
  generalize (n mod 10)%N. intros x Hx.
  rewrite decimal_ascii by lia.
  destruct (N.leb_spec 48 (48 + x)), (N.leb_spec (48 + x) 57);
    cbn [andb]; try (exfalso; lia).
  f_equal. lia.
Qed.

Lemma numeral_four_digits y : (y < 10000)%N -> numeral (four_digits y) y.
Proof.
  intros H. rewrite <- (four_digits_value H) at 2.
  unfold four_digits.
  change [digit (y / 1000); digit (y / 100); digit (y / 10); digit y]
    with ((([digit (y / 1000)] ++ [digit (y / 100)]) ++ [digit (y / 10)]) ++ [digit y]).
  repeat (apply numeral_snoc; [|apply decimal_digit]).
  apply numeral_digit, decimal_digit.
Qed.

Lemma numeral_str_of_N d : (d < 100)%N -> numeral (str_of_N d) d.
Proof.
  intros H. rewrite (str_of_N_small H).
  destruct (N.ltb_spec d 10) as [Hlt|Hge].
  - rewrite <- (N.mod_small d 10 Hlt) at 2. apply numeral_digit, decimal_digit.
  - unfold two_digits.
    assert (E : (d = 10 * ((d / 10) mod 10) + d mod 10)%N).
    { assert (d / 10 < 10)%N by (apply N.Div0.div_lt_upper_bound; lia).
      rewrite (N.mod_small (d / 10)) by assumption.
      apply N.div_mod. lia. }
    rewrite E at 3.
    change [digit (d / 10); digit d] with ([digit (d / 10)] ++ [digit d]).
    apply numeral_snoc; [|apply decimal_digit].
    apply numeral_digit, decimal_digit.
Qed.

Lemma isdecimal_ascii c :
  (c < 128)%N -> isdecimal c = in_range 48 57 c.
Proof.
  intros H. unfold isdecimal, in_range. rewrite decimal_ascii by exact H.
  now destruct ((48 <=? c) && (c <=? 57))%N.
Qed.

End DigitFacts.

(** *** The pattern of [strptime] *)

Section StrptimeFacts.
Context {db : UnicodeDB} {F : UnicodeFacts db}.

Lemma rmatch_Cat (R : Type) r1 r2 s cs (k : str -> captures -> option R) :
  rmatch (Cat r1 r2) s cs k = rmatch r1 s cs (fun t cs' => rmatch r2 t cs' k).
Proof. reflexivity. Qed.

Lemma rmatch_Chr (R : Type) c s cs (k : str -> captures -> option R) :
  rmatch (Chr c) (c :: s) cs k = k s cs.
Proof. cbn [rmatch]. now rewrite N.eqb_refl. Qed.

Lemma rmatch_group_app (R : Type) g r1 w s cs (k : str -> captures -> option R) x :
  (forall k' : str -> captures -> option R,
     k' s cs = Some x -> rmatch r1 (w ++ s) cs k' = Some x) ->
  k s ((g, w) :: cs) = Some x ->
  rmatch (Group g r1) (w ++ s) cs k = Some x.
Proof.
  intros H Hk. cbn [rmatch]. apply H. now rewrite firstn_app_sub.
Qed.

Lemma month_cases m :
  (1 <= m <= 12)%N ->
  m = 1%N \/ m = 2%N \/ m = 3%N \/ m = 4%N \/ m = 5%N \/ m = 6%N \/ m = 7%N
  \/ m = 8%N \/ m = 9%N \/ m = 10%N \/ m = 11%N \/ m = 12%N.
Proof. lia. Qed.

(** A month name, its first letter a capital, is matched whole. *)
Lemma month_accepts (R : Type) m s cs (k : str -> captures -> option R) x :
  (1 <= m <= 12)%N ->
  k s ((1, month_name_en m) :: cs) = Some x ->
  rmatch RE_B (month_name_en m ++ s) cs k = Some x.
Proof.
  intros Hm Hk. unfold RE_B. apply rmatch_group_app; [|exact Hk].
  intros k' Hk'.
  destruct (month_cases Hm) as [->|[->|[->|[->|[->|[->|[->|[->|[->|[->|[->| ->]]]]]]]]]]];
    match goal with
    | |- context [month_name_en ?m] =>
        let v := eval vm_compute in (month_name_en m) in
        change (month_name_en m) with v
    end;
    cbn; now rewrite Hk'.
Qed.

Lemma month_index m :
  (1 <= m <= 12)%N ->
  index_from 1 (py_lower (month_name_en m)) month_names = Some m.
Proof.
  intros Hm.
  destruct (month_cases Hm) as [->|[->|[->|[->|[->|[->|[->|[->|[->|[->|[->| ->]]]]]]]]]]];
    reflexivity.
Qed.

Lemma space_then (R : Type) t cs (k : str -> captures -> option R) :
  match t with [] => True | c :: _ => isspace c = false end ->
  rmatch (Plus isspace) (32%N :: t) cs k = k t cs.
Proof.
  intros H. cbn [rmatch]. change (isspace 32) with true. cbv iota.
  destruct t as [|c t]; cbn [plus_loop]; [reflexivity|]. now rewrite H.
Qed.

Lemma year_accepts (R : Type) a b c e s cs (k : str -> captures -> option R) :
  isdecimal a = true -> isdecimal b = true ->
  isdecimal c = true -> isdecimal e = true ->
  rmatch RE_Y (a :: b :: c :: e :: s) cs k = k s ((3, [a; b; c; e]) :: cs).
Proof.
  intros Ha Hb Hc He. unfold RE_Y. cbn [rmatch]. rewrite Ha, Hb, Hc, He.
  change (a :: b :: c :: e :: s) with ([a; b; c; e] ++ s).
  now rewrite firstn_app_sub.
Qed.

Local Arguments isdecimal : simpl never.

(** The numeral of a day of the month, in front of the comma, is
    matched whole. *)
Lemma day_accepts (R : Type) d s cs (k : str -> captures -> option R) x :
  (1 <= d <= 31)%N ->
  k (44%N :: s) ((2, str_of_N d) :: cs) = Some x ->
  rmatch RE_d (str_of_N d ++ 44%N :: s) cs k = Some x.
Proof.
  intros Hd Hk. unfold RE_d. apply rmatch_group_app; [|exact Hk].
  intros k' Hk'.
  destruct d as [|p]; [lia|].
  do 5 (try destruct p as [p|p|]); try lia;
    match goal with
    | |- context [str_of_N ?n] =>
        let v := eval vm_compute in (str_of_N n) in
        change (str_of_N n) with v
    end;
    cbn;
    repeat match goal with
           | |- context [isdecimal ?c] =>
               rewrite (@isdecimal_ascii _ _ c eq_refl); cbn
           end;
    now rewrite Hk'.
Qed.

End StrptimeFacts.


Section EnglishDates.
Context {db : UnicodeDB} {F : UnicodeFacts db}.

Lemma numeral_head_nonspace ds n s :
  numeral ds n ->
  match ds ++ s with [] => True | c :: _ => isspace c = false end.
Proof.
  intros H. destruct (numeral_value H) as (Hne & Hall & _).
  destruct Hall as [|c ds Hc _]; [contradiction|].
  simpl. now apply isdecimal_nonspace.
Qed.

Lemma isdecimal_digit n : isdecimal (digit n) = true.
Proof. unfold isdecimal. now rewrite decimal_digit. Qed.

Lemma strptime_match y m d :
  (y < 10000)%N -> (1 <= m <= 12)%N -> (1 <= d <= 31)%N ->
  re_match STRPTIME_RE (english_date y m d)
  = Some ([], [(3, four_digits y); (2, str_of_N d); (1, month_name_en m)]).
Proof.
  intros Hy Hm Hd. unfold re_match, STRPTIME_RE, english_date.
  rewrite rmatch_Cat. apply month_accepts; [exact Hm|]. cbv beta.
  change (lit " " ++ str_of_N d ++ lit ", " ++ four_digits y)
    with (32%N :: str_of_N d ++ 44%N :: 32%N :: four_digits y).
  rewrite rmatch_Cat.
  rewrite space_then
    by (apply (@numeral_head_nonspace _ d); apply numeral_str_of_N; lia).
  rewrite rmatch_Cat. apply day_accepts; [exact Hd|]. cbv beta.
  rewrite rmatch_Cat, rmatch_Chr, rmatch_Cat.
  rewrite space_then by (simpl; apply isdecimal_nonspace, isdecimal_digit).
  unfold four_digits.
  rewrite year_accepts by apply isdecimal_digit.
  reflexivity.
Qed.

Lemma str_of_N_length_two d : (d < 100)%N -> length (str_of_N d) <= 2.
Proof.
  intros H. rewrite (str_of_N_small H). destruct (d <? 10)%N; simpl; lia.
Qed.

(** What [strptime] makes of the text of a date: the date, when the
    calendar has it. *)
Lemma strptime_english_fields y m d :
  (y < 10000)%N -> (1 <= m <= 12)%N -> (1 <= d <= 31)%N ->
  strptime_BdY (english_date y m d)
  = if valid_date y m d then Some (y, m, d) else None.
Proof.
  intros Hy Hm Hd.
  unfold strptime_BdY. rewrite strptime_match by lia.
  cbn [group Nat.eqb obind].
  rewrite (py_int_numeral (numeral_four_digits (y := y) ltac:(lia)))
    by (unfold int_max_str_digits; simpl; lia).
  rewrite (month_index Hm).
  rewrite (py_int_numeral (numeral_str_of_N (d := d) ltac:(lia))).
  - reflexivity.
  - pose proof (@str_of_N_length_two d ltac:(lia)).
    unfold int_max_str_digits. lia.
Qed.


End EnglishDates.

Section DateParsing.
Context {db : UnicodeDB} {F : UnicodeFacts db}.

(** One field of the Korean date: [int] and the conversion back. *)
Lemma convert_numeral (A : Type) width ds n (k : str -> option A) :
  numeral ds n ->
  obind (py_int ds) (fun v => obind (py_format_0d width v) k)
  = if convertible ds n then k (format_0d width n) else None.
Proof.
  intros H. rewrite (py_int_digits H). unfold convertible, py_format_0d.
  destruct (length ds <=? int_max_str_digits); [|reflexivity].
  cbn [obind andb].
  now destruct (length (str_of_N n) <=? int_max_str_digits).
Qed.

Lemma parse_date_numerals text Y M D rest y m d :
  re_findall (Plus isdecimal) text = Y :: M :: D :: rest ->
  numeral Y y -> numeral M m -> numeral D d ->
  parse_date true text
  = if convertible Y y && convertible M m && convertible D d
    then Some (format_ymd y m d) else None.
Proof.
  intros E HY HM HD. unfold parse_date. rewrite E.
  rewrite (convert_numeral 4 _ HY).
  destruct (convertible Y y); [|reflexivity].
  rewrite (convert_numeral 2 _ HM).
  destruct (convertible M m); [|reflexivity].
  rewrite (convert_numeral 2 _ HD).
  destruct (convertible D d); reflexivity.
Qed.

Lemma parse_date_korean text Y M D y m d :
  korean_date text Y M D -> numeral Y y -> numeral M m -> numeral D d ->
  parse_date true text
  = if convertible Y y && convertible M m && convertible D d
    then Some (format_ymd y m d) else None.
Proof.
  intros Hk HY HM HD.
  destruct (findall_korean_date Hk HY HM HD) as [rest E].
  exact (parse_date_numerals _ E HY HM HD).
Qed.


(** The outcomes of the Korean branch, by the numerals of the text. *)
Lemma parse_date_kr_forms text :
  exists rs,
    digit_runs text rs
    /\ match rs with
       | Y :: M :: D :: _ =>
           exists y m d,
             numeral Y y /\ numeral M m /\ numeral D d
             /\ parse_date true text
                = if convertible Y y && convertible M m && convertible D d
                  then Some (format_ymd y m d) else None
       | _ => parse_date true text = Some text
       end.
Proof.
  exists (re_findall (Plus isdecimal) text).
  pose proof (findall_digit_runs text) as Hruns.
  split; [exact Hruns|].
  pose proof (digit_runs_numerals Hruns) as Hall.
  destruct (re_findall (Plus isdecimal) text) as [|Y [|M [|D rest]]] eqn:E;
    try (unfold parse_date; rewrite E; reflexivity).
  inversion Hall as [|? ? [y HY] Hall1]; subst.
  inversion Hall1 as [|? ? [m HM] Hall2]; subst.
  inversion Hall2 as [|? ? [d HD] _]; subst.
  exists y, m, d. repeat split; try assumption.
  exact (parse_date_numerals _ E HY HM HD).
Qed.



End DateParsing.







(** * Further properties *)

(** ** The text normaliser *)

Section NormalizerMore.
Context {db : UnicodeDB}.

Lemma collapse_keeps_nonspace s : forall st,
  filter (fun c => negb (isspace c)) (collapse s st)
  = filter (fun c => negb (isspace c)) s.
Proof.
  induction s as [|c s IH]; intros st; simpl; [reflexivity|].
  destruct (isspace c) eqn:E; simpl; [apply IH|].
  destruct st; simpl; rewrite ?E; simpl; now rewrite IH.
Qed.

Lemma py_split_words s : Forall word (py_split s).
Proof. apply split_loop_word. constructor. Qed.

End NormalizerMore.

(** X1. The language setting has no effect on the result: the two
    character sets of [normalize_text] delete the same characters,
    because both hold the class [\w], which contains the letters and
    digits of either branch. *)
Theorem normalize_text_language_independent
  (db : UnicodeDB) (F : UnicodeFacts db) (language1 language2 : str) (text : cell) :
  normalize_text language1 text = normalize_text language2 text.
Proof.
  destruct text as [s|f|z|b]; try reflexivity;
    unfold normalize_text, re_sub_delete;
    destruct (str_eqb language1 (lit "KR")), (str_eqb language2 (lit "KR"));
    f_equal; f_equal; apply filter_ext; intros c;
    rewrite ?KR_SET_allowed, ?EN_SET_allowed; reflexivity.
Qed.

Lemma normalize_text_language_independent_witness :
  normalize_text (db := ascii_hangul_db) (lit "KR") (CStr (lit "a_1 #!"))
  = normalize_text (db := ascii_hangul_db) (lit "EN") (CStr (lit "a_1 #!")).
Proof.
  apply (@normalize_text_language_independent ascii_hangul_db ascii_hangul_facts).
Defined.

(** X2. What [normalize_text] returns is a sequence of words joined by
    single spaces (U+0020), a word being a non-empty text without
    white space: no white space in front or at the end, none twice in
    a row, and no tab or line break. *)
Theorem normalize_text_single_spaced
  (db : UnicodeDB) (language : str) (text : cell) :
  exists words,
    Forall word words
    /\ normalize_text language text = py_join [32%N] words
    /\ py_split (normalize_text language text) = words.
Proof.
  destruct text as [s|f|z|b];
    try (exists []; repeat split; constructor);
    unfold normalize_text;
    eexists; (split; [apply py_split_words|]);
    (split; [reflexivity|]); apply py_split_join, py_split_words.
Qed.

(** X3. For a cell that is not a float, [normalize_text] returns,
    apart from white space, the characters of the cell's text that the
    character set of the language does not match, each as it was and in
    the order it had: no kept character is changed, moved or doubled.
    For a float it returns the empty text, whatever the float. *)
Theorem normalize_text_keeps_order
  (db : UnicodeDB) (language : str) (text : cell) :
  match text with
  | CFloat _ => normalize_text language text = []
  | _ =>
      filter (fun c => negb (isspace c)) (normalize_text language text)
      = filter (fun c => negb (isspace c))
          (filter (fun c => negb (negated_set
                     (if str_eqb language (lit "KR") then KR_SET else EN_SET) c))
                  (str_of_cell text))
  end.
Proof.
  destruct text as [s|f|z|b]; try reflexivity;
    unfold normalize_text, re_sub_delete;
    rewrite join_split_is_collapse; unfold collapse_whitespace;
    rewrite collapse_keeps_nonspace;
    destruct (str_eqb language (lit "KR")); reflexivity.
Qed.

(** ** The insight generator *)

Section LoopMore.
Context {db : UnicodeDB} {rt : PyRuntime}.
Variable srv : server.
Variables language prompt_input : str.

(** The loop under any endpoint: it posts the requests of the first
    [k] chunks and either hands over one text per chunk or has written
    the error of the step that failed. *)
Lemma chunk_loop_general all idx : forall reports ins st,
  exists k res st',
    chunk_loop srv language prompt_input all idx reports ins st = (inr res, st')
    /\ k <= length idx
    /\ posted st'
       = posted st ++ firstn k (map make_payload (prompts_at language prompt_input all idx))
    /\ match res with
       | Some reports' =>
           k = length idx /\ output_text st' = output_text st
           /\ exists texts, length texts = length idx
                            /\ reports' = reports ++ map JStr texts
       | None => 0 < k /\ exists e, output_text st' = chunk_error e
       end.
Proof.
  induction idx as [|i idx IH]; intros reports ins st.
  - exists 0, (Some reports), st. cbn. rewrite app_nil_r.
    split; [reflexivity|]. split; [lia|]. do 3 (split; [reflexivity|]).
    exists []. split; [reflexivity|]. cbn. now rewrite app_nil_r.
  - rewrite chunk_loop_cons. cbv zeta.
    destruct (step_outcome _) as [e|s].
    + exists 1, None. eexists. split; [reflexivity|].
      cbn. repeat split; try lia. now exists e.
    + destruct (IH (reports ++ [JStr s]) (ins ++ s ++ [10; 10]%N)
                  {| posted := posted st ++ [make_payload (chunk_prompt language prompt_input (slice all i (i + chunk_size)))];
                     output_text := output_text st |})
        as (k & res & st' & Hrun & Hk & Hposted & Hres).
      exists (S k), res, st'. split; [exact Hrun|].
      split; [simpl; lia|]. split.
      * rewrite Hposted. cbn. now rewrite <- app_assoc.
      * destruct res as [reports'|].
        -- destruct Hres as (-> & Hout & texts & Hlen & ->).
           repeat split; try assumption.
           exists (s :: texts). split; [simpl; now rewrite Hlen|].
           cbn. now rewrite <- app_assoc.
        -- destruct Hres as (_ & e & He). split; [lia|now exists e].
Qed.

End LoopMore.

Lemma chunk_prompts_length (db : UnicodeDB) (rt : PyRuntime)
      (language prompt_input : str) (all : list cell) :
  length (chunk_prompts language prompt_input all) = ceil_div (length all) 20.
Proof.
  unfold chunk_prompts, chunks, py_range. rewrite !length_map.
  rewrite range_loop_length by (unfold chunk_size; lia).
  now rewrite Nat.sub_0_r.
Qed.

(** X4. A call to the endpoint posts exactly one request, the payload
    of its prompt with the fixed model parameters, after the requests
    already posted; it does so whether it returns or raises, and it
    never writes to the output area. *)
Theorem call_lmstudio_posts_one_request (srv : server) (prompt : str) (st : state) :
  snd (call_lmstudio srv prompt st)
  = {| posted := posted st ++ [make_payload prompt];
       output_text := output_text st |}
  /\ model (make_payload prompt) = model_identifier
  /\ Doctor.prompt (make_payload prompt) = prompt
  /\ max_tokens (make_payload prompt) = 500%Z
  /\ temperature (make_payload prompt) = (7, 10)%Z.
Proof. rewrite call_lmstudio_run. repeat split. Qed.

(** X5. [generate_insights] never raises, whatever the endpoint does,
    and it always leaves a message in the output area: the missing
    column, the error of a chunk call, the final report, or the error
    of the final call. *)
Theorem generate_insights_never_raises
  (db : UnicodeDB) (rt : PyRuntime) (srv : server) (language prompt_input : str)
  (df : dataframe) (st : state) :
  let out := generate_insights srv language prompt_input df st in
  fst out = inr tt
  /\ (output_text (snd out) = lit "Error: 'review' column not found in the CSV file."
      \/ (exists e, output_text (snd out) = chunk_error e)
      \/ (exists v, output_text (snd out) = lit "Final Report:" ++ [10%N] ++ py_str v)
      \/ (exists e, output_text (snd out)
                    = lit "Error generating final report: " ++ str_of_exn e)).
Proof.
  unfold generate_insights.
  destruct (df_column (lit "review") df) as [all|]; [|split; [reflexivity|now left]].
  unfold bind.
  destruct (chunk_loop_general srv language prompt_input all
              (py_range 0 (length all) chunk_size) [] [] st)
    as (k & res & st' & Hrun & _ & _ & Hres).
  rewrite Hrun. destruct res as [reports|].
  - unfold try. rewrite call_lmstudio_run.
    destruct (response_of _ _ _) as [e|v]; cbn; split; try reflexivity.
    + right. right. right. now exists e.
    + right. right. left. now exists v.
  - cbn. split; [reflexivity|]. right. left. apply Hres.
Qed.

(** X6. Whatever the endpoint answers, the requests of a run are the
    requests of the first [k] chunks, in order and each once, or those
    of all the chunks followed by one final request built from one
    text per chunk; so a run posts at most ceil(L/20) + 1 requests, all
    with the fixed model parameters, and none when the table has no
    review column. *)
Theorem run_requests_are_a_prefix
  (db : UnicodeDB) (rt : PyRuntime) (srv : server) (language prompt_input : str)
  (df : dataframe) :
  let final := run srv language prompt_input df in
  match df_column (lit "review") df with
  | None => posted final = []
  | Some all_reviews =>
      let payloads := map make_payload (chunk_prompts language prompt_input all_reviews) in
      ((exists k, k <= length payloads /\ posted final = firstn k payloads)
       \/ (exists texts,
             length texts = length payloads
             /\ posted final
                = payloads ++ [make_payload (final_prompt (map JStr texts))]))
      /\ length (posted final) <= ceil_div (length all_reviews) 20 + 1
  end
  /\ Forall (fun p => model p = model_identifier /\ max_tokens p = 500%Z
                      /\ temperature p = (7, 10)%Z) (posted final).
Proof.
  intros final. unfold final.
  destruct (df_column (lit "review") df) as [all|] eqn:Hcol.
  2: { unfold run, generate_insights. rewrite Hcol. cbn. split; constructor. }
  rewrite (run_unfold _ _ _ _ Hcol).
  destruct (chunk_loop_general srv language prompt_input all
              (py_range 0 (length all) chunk_size) [] [] (initial))
    as (k & res & st' & Hrun & Hk & Hposted & Hres).
  rewrite Hrun. rewrite prompts_at_range in Hposted. cbn [initial posted app] in Hposted.
  assert (Hlen : length (py_range 0 (length all) chunk_size)
                 = length (chunk_prompts language prompt_input all)).
  { unfold chunk_prompts, chunks. now rewrite !length_map. }
  pose proof (chunk_prompts_length db rt language prompt_input all) as Hceil.
  assert (Hfix : forall ps, Forall (fun p => model p = model_identifier
                   /\ max_tokens p = 500%Z /\ temperature p = (7, 10)%Z)
                   (map make_payload ps)).
  { intros ps. apply Forall_forall. intros p Hp. apply in_map_iff in Hp.
    destruct Hp as (q & <- & _). repeat split. }
  destruct res as [reports|].
  - destruct Hres as (-> & _ & texts & Htexts & ->).
    rewrite firstn_all2 in Hposted by (rewrite length_map; lia).
    cbn [app].
    destruct (response_of _ _ _); cbn [snd posted]; rewrite Hposted;
      (split; [split|];
       [ right; exists texts; split; [rewrite length_map; lia|reflexivity]
       | rewrite length_app, length_map; cbn [length]; lia
       | apply Forall_app; split; [apply Hfix|repeat constructor] ]).
  - cbn [snd posted]. rewrite Hposted. split; [split|].
    + left. exists k. split; [rewrite length_map; lia|reflexivity].
    + rewrite length_firstn, length_map, Hceil. lia.
    + rewrite firstn_map. apply Hfix.
Qed.

(** ** The window of the insight generator *)

Lemma last_cons (A : Type) (l : list A) : forall a d, last (a :: l) d = last l a.
Proof.
  induction l as [|x l IH]; intros a d; [reflexivity|].
  change (last (a :: x :: l) d) with (last (x :: l) d).
  now rewrite !IH.
Qed.

Section DoctorUIFacts.
Import DoctorUI.

Lemma generate_insights_returns (db : UnicodeDB) (rt : PyRuntime) (srv : server)
      (language prompt_input : str) (df : dataframe) (st : state) :
  fst (generate_insights srv language prompt_input df st) = inr tt.
Proof.
  unfold generate_insights.
  destruct (df_column (lit "review") df) as [all|]; [|reflexivity].
  unfold bind.
  destruct (chunk_loop_general srv language prompt_input all
              (py_range 0 (length all) chunk_size) [] [] st)
    as (k & res & st' & Hrun & _ & _ & Hres).
  rewrite Hrun. destruct res as [reports|]; [|reflexivity].
  unfold try. rewrite call_lmstudio_run.
  now destruct (response_of _ _ _).
Qed.

Lemma select_csv_files (choices : list str) : forall w0 : window,
  let w := fold_left (fun w chosen => select_csv_file chosen w) choices w0 in
  csv_file w = last (map Some choices) (csv_file w0)
  /\ analyze_enabled w
     = (analyze_enabled w0 || existsb (fun c => negb (str_eqb c [])) choices).
Proof.
  cbv zeta. induction choices as [|c cs IH]; intros w0.
  - cbn. now rewrite orb_false_r.
  - cbn [fold_left]. destruct (IH (select_csv_file c w0)) as [-> ->].
    split.
    + cbn [map select_csv_file csv_file]. now rewrite last_cons.
    + cbn [existsb select_csv_file analyze_enabled].
      destruct c; cbn; [reflexivity|]. now rewrite orb_true_r.
Qed.

(** X7. [analyze_reviews] never raises.  When the file cannot be read
    it posts no request and shows the message "Error loading or
    analyzing CSV file: ..." with the text of the exception; when the
    file is read, its handler never fires, and the outcome is that of
    [generate_insights] on the table. *)
Theorem analyze_reviews_outcomes
  (db : UnicodeDB) (rt : PyRuntime) (srv : server) (language prompt_input : str)
  (read : exn + dataframe) (st : state) :
  let out := analyze_reviews srv language prompt_input read st in
  fst out = inr tt
  /\ match read with
     | inl e =>
         snd out
         = {| posted := posted st;
              output_text := lit "Error loading or analyzing CSV file: " ++ str_of_exn e |}
     | inr df => out = generate_insights srv language prompt_input df st
     end.
Proof.
  cbv zeta. unfold analyze_reviews. destruct read as [e|df].
  - split; reflexivity.
  - unfold bind, lift, ret.
    pose proof (generate_insights_returns db rt srv language prompt_input df st) as H.
    destruct (generate_insights srv language prompt_input df st) as [[e|[]] st'];
      [discriminate|]. split; reflexivity.
Qed.

(** X8. After any number of file dialogs, a click on Analyze does
    something exactly when one of the dialogs returned a path, and it
    then reads the path of the last dialog: the empty path when that
    dialog was cancelled, since the button stays enabled. *)
Theorem analyze_click_reads_last_choice
  (db : UnicodeDB) (rt : PyRuntime) (srv : server) (language prompt_input : str)
  (read_csv : option str -> exn + dataframe) (choices : list str) (st : state) :
  let w := fold_left (fun w chosen => select_csv_file chosen w) choices fresh_window in
  click_analyze srv language prompt_input read_csv w st
  = if existsb (fun c => negb (str_eqb c [])) choices
    then analyze_reviews srv language prompt_input
           (read_csv (last (map Some choices) None)) st
    else (inr tt, st).
Proof.
  cbv zeta. unfold click_analyze.
  destruct (select_csv_files choices fresh_window) as [-> ->].
  cbn [fresh_window analyze_enabled csv_file orb].
  now destruct (existsb _ choices).
Qed.

End DoctorUIFacts.

(** ** The review extractor *)

Section CrawlerMore.
Context {db : UnicodeDB}.

Lemma extracted_app is_kr es1 es2 :
  extracted is_kr (es1 ++ es2) = extracted is_kr es1 ++ extracted is_kr es2.
Proof.
  induction es1 as [|e es1 IH]; [reflexivity|].
  cbn [app extracted]. destruct (extract_one is_kr e); [|exact IH].
  cbn [app]. now rewrite IH.
Qed.

Lemma insert_by_date_front x l :
  Forall (date_le x) l -> insert_by_date x l = x :: l.
Proof.
  intros H. destruct l as [|y l]; [reflexivity|].
  cbn [insert_by_date]. inversion H as [|? ? Hxy _]; subst.
  unfold date_le, str_le in Hxy. now rewrite Hxy.
Qed.

Lemma sorted_by_date_fixes l :
  StronglySorted date_le l -> sorted_by_date l = l.
Proof.
  induction 1 as [|x l Hs IH Hx]; [reflexivity|].
  change (sorted_by_date (x :: l)) with (insert_by_date x (sorted_by_date l)).
  rewrite IH. now apply insert_by_date_front.
Qed.

End CrawlerMore.

(** X9. A review element on which a step of the extraction raises
    leaves no trace: the rows are those of the page without the
    element, in the same order. *)
Theorem failing_review_leaves_no_trace
  (db : UnicodeDB) (is_kr : bool) (n : nat) (es1 es2 : list review_elem)
  (e : review_elem) :
  extract_one is_kr e = None ->
  extract_reviews is_kr {| arrow_icons := n; reviews := es1 ++ e :: es2 |}
  = extract_reviews is_kr {| arrow_icons := n; reviews := es1 ++ es2 |}.
Proof.
  intros He. unfold extract_reviews. cbn [arrow_icons reviews].
  rewrite !extracted_app. cbn [extracted]. now rewrite He.
Qed.

Lemma failing_review_leaves_no_trace_witness :
  extract_reviews (db := ascii_hangul_db) false
    {| arrow_icons := 3;
       reviews := [sample_review "slow" "Rated 2 stars out of five stars" "March 1, 2022"]
                  ++ sample_review "late" "Rated 4 stars out of five stars" "2 days ago"
                  :: [sample_review "fine" "Rated 5 stars out of five stars" "July 9, 2023"] |}
  = extract_reviews (db := ascii_hangul_db) false
    {| arrow_icons := 3;
       reviews := [sample_review "slow" "Rated 2 stars out of five stars" "March 1, 2022"]
                  ++ [sample_review "fine" "Rated 5 stars out of five stars" "July 9, 2023"] |}.
Proof.
  apply (@failing_review_leaves_no_trace ascii_hangul_db false 3). reflexivity.
Defined.

(** X10. A review is dropped exactly when one of its parts is missing
    from the page, or when a numeral that [int] is given has more than
    4300 digits (the numeral of the rating text, or one of the first
    three of a Korean date with three numerals or more, in the text or
    as the number is written back), or, in the English locale, when
    [strptime] refuses the date text.  A label without a rating text
    never costs a review, and no Korean date text with numerals of
    ordinary length does. *)
Theorem review_dropped_iff
  (db : UnicodeDB) (F : UnicodeFacts db) (is_kr : bool) (e : review_elem) :
  extract_one is_kr e = None
  <-> match element_fields e with
      | None => True
      | Some (_, label, dt) =>
          (exists pre ds n,
             leftmost_rating is_kr label pre ds /\ numeral ds n
             /\ int_max_str_digits < length ds)
          \/ (if is_kr
              then exists Y M D rest y m d,
                     digit_runs (strip dt) (Y :: M :: D :: rest)
                     /\ numeral Y y /\ numeral M m /\ numeral D d
                     /\ convertible Y y && convertible M m && convertible D d
                        = false
              else strptime_BdY (strip dt) = None)
      end.
Proof.
  unfold extract_one, element_fields, obind.
  destruct (body_text e) as [t|]; [|tauto].
  destruct (meta e) as [mt|]; [|tauto].
  destruct (aria_label mt) as [[label|]|]; [|tauto|tauto].
  destruct (date_text mt) as [dt|];
    [|destruct (parse_rating is_kr label); tauto].
  pose proof (@parse_rating_raises _ F is_kr label) as Hr.
  destruct (parse_rating is_kr label) as [r|].
  2:{ split; [intros _; left; now apply Hr|reflexivity]. }
  assert (Hno : ~ exists pre ds n,
             leftmost_rating is_kr label pre ds /\ numeral ds n
             /\ int_max_str_digits < length ds).
  { intros H. apply Hr in H. discriminate. }
  clear Hr. destruct is_kr.
  - destruct (@parse_date_kr_forms _ F (strip dt)) as (rs & Hruns & Hp).
    split.
    + intros Hnone. right.
      destruct rs as [|Y [|M [|D rest]]];
        try (rewrite Hp in Hnone; discriminate).
      destruct Hp as (y & m & d & HY & HM & HD & Hp).
      exists Y, M, D, rest, y, m, d. repeat split; try assumption.
      rewrite Hp in Hnone.
      now destruct (convertible Y y && convertible M m && convertible D d).
    + intros [H|(Y & M & D & rest & y & m & d & Hruns' & HY & HM & HD & Hc)];
        [now contradiction Hno|].
      rewrite (parse_date_numerals _ (digit_runs_findall Hruns') HY HM HD), Hc.
      reflexivity.
  - unfold parse_date. destruct (strptime_BdY (strip dt)) as [[[y m] d]|].
    + split; [discriminate|intros [H|H]; [now contradiction Hno|discriminate]].
    + split; [intros _; now right|reflexivity].
Qed.

Lemma review_dropped_iff_witness :
  extract_one (db := ascii_hangul_db) false
    (sample_review "late" "Rated 4 stars out of five stars" "2 days ago") = None.
Proof.
  apply (proj2 (@review_dropped_iff ascii_hangul_db ascii_hangul_facts false
                  (sample_review "late" "Rated 4 stars out of five stars" "2 days ago"))).
  right. reflexivity.
Defined.

(** X11. When the page lists the reviews in non-decreasing order of
    date, the rows are saved in the order of the page: the sort moves
    nothing. *)
Theorem rows_in_date_order_keep_page_order
  (db : UnicodeDB) (is_kr : bool) (pg : page) :
  3 <= arrow_icons pg ->
  StronglySorted date_le (extracted is_kr (reviews pg)) ->
  extract_reviews is_kr pg = Some (extracted is_kr (reviews pg)).
Proof.
  intros Hn Hs. unfold extract_reviews.
  destruct (Nat.leb_spec 3 (arrow_icons pg)) as [_|]; [|lia].
  now rewrite sorted_by_date_fixes.
Qed.

Lemma rows_in_date_order_keep_page_order_witness :
  extract_reviews (db := ascii_hangul_db) false
    {| arrow_icons := 3;
       reviews := [ sample_review "slow" "Rated 2 stars out of five stars" "March 1, 2022";
                    sample_review "fine" "Rated 5 stars out of five stars" "July 9, 2023" ] |}
  = Some [ {| review := lit "slow"; rating := Some 2%N; date := lit "2022-03-01" |};
           {| review := lit "fine"; rating := Some 5%N; date := lit "2023-07-09" |} ].
Proof.
  apply (@rows_in_date_order_keep_page_order ascii_hangul_db false
           {| arrow_icons := 3;
              reviews := [ sample_review "slow" "Rated 2 stars out of five stars" "March 1, 2022";
                           sample_review "fine" "Rated 5 stars out of five stars" "July 9, 2023" ] |}).
  - simpl. lia.
  - repeat constructor.
Defined.

(** X12. In the English locale a text ["Month D, YYYY"] is accepted
    exactly when it names a day of the calendar: a day the month does
    not have, as in February 30 or February 29 of a common year, and
    the year 0000 make the review fail.  The date of an accepted text
    is the year without zeros in front, then the month and the day on
    two digits, which is the ISO date from the year 1000 on. *)
Theorem english_date_accepted_iff_calendar
  (db : UnicodeDB) (F : UnicodeFacts db) (y m d : N) :
  (y < 10000)%N -> (1 <= m <= 12)%N -> (1 <= d <= 31)%N ->
  parse_date false (english_date y m d)
  = (if valid_date y m d
     then Some (str_of_N y ++ [45%N] ++ two_digits m ++ [45%N] ++ two_digits d)
     else None)
  /\ ((1000 <= y)%N ->
      str_of_N y ++ [45%N] ++ two_digits m ++ [45%N] ++ two_digits d
      = iso_date y m d).
Proof.
  intros Hy Hm Hd. split.
  - unfold parse_date. rewrite (@strptime_english_fields _ F) by assumption.
    destruct (valid_date y m d); [|reflexivity].
    unfold strftime_Ymd. now rewrite !format_0d_two by lia.
  - intros Hlo. unfold iso_date. now rewrite str_of_N_four by lia.
Qed.

Lemma english_date_accepted_iff_calendar_witness :
  parse_date (db := ascii_hangul_db) false (lit "February 30, 2023") = None
  /\ parse_date (db := ascii_hangul_db) false (lit "February 29, 2024")
     = Some (lit "2024-02-29")
  /\ parse_date (db := ascii_hangul_db) false (lit "February 28, 0999")
     = Some (lit "999-02-28").
Proof.
  split; [|split].
  - apply (@english_date_accepted_iff_calendar ascii_hangul_db ascii_hangul_facts
             2023 2 30); lia.
  - apply (@english_date_accepted_iff_calendar ascii_hangul_db ascii_hangul_facts
             2024 2 29); lia.
  - apply (@english_date_accepted_iff_calendar ascii_hangul_db ascii_hangul_facts
             999 2 28); lia.
Defined.

Section StripFacts.

Lemma lstrip_head s :
  match lstrip s with [] => True | c :: _ => isspace c = false end.
Proof.
  induction s as [|c s IH]; [exact I|].
  cbn [lstrip]. destruct (isspace c) eqn:E; [exact IH|exact E].
Qed.

Lemma lstrip_snoc s c :
  isspace c = false -> lstrip (s ++ [c]) = lstrip s ++ [c].
Proof.
  intros Hc. induction s as [|x s IH]; cbn [app lstrip]; [now rewrite Hc|].
  destruct (isspace x); [exact IH|reflexivity].
Qed.

(** [s.strip()] neither begins nor ends with white space. *)
Lemma strip_ends s :
  match strip s with [] => True | c :: _ => isspace c = false end
  /\ match rev (strip s) with [] => True | c :: _ => isspace c = false end.
Proof.
  unfold strip, rstrip. split.
  - pose proof (lstrip_head s) as H. destruct (lstrip s) as [|c t]; [exact I|].
    cbn [rev]. rewrite (@lstrip_snoc (rev t) c H), rev_app_distr. exact H.
  - rewrite rev_involutive. apply lstrip_head.
Qed.

End StripFacts.

(** X13. The review text of every saved row neither begins nor ends
    with white space. *)
Theorem saved_review_text_is_stripped
  (db : UnicodeDB) (is_kr : bool) (pg : page) (rows : list row) (r : row) :
  extract_reviews is_kr pg = Some rows -> In r rows ->
  match review r with [] => True | c :: _ => isspace c = false end
  /\ match rev (review r) with [] => True | c :: _ => isspace c = false end.
Proof.
  intros Hrun Hin.
  destruct (@persisted_row_inv _ _ _ _ _ Hrun Hin) as (e & _ & He).
  destruct (@extract_one_inv _ _ _ _ He) as (t & mt & label & dt & _ & _ & _ & _ & -> & _).
  apply strip_ends.
Qed.

Lemma saved_review_text_is_stripped_witness :
  match lit "great app" with [] => True | c :: _ => isspace c = false end
  /\ match rev (lit "great app") with [] => True | c :: _ => isspace c = false end.
Proof.
  apply (@saved_review_text_is_stripped ascii_hangul_db false sample_page
           (sorted_by_date (extracted (db := ascii_hangul_db) false (reviews sample_page)))
           {| review := lit "great app"; rating := Some 5%N; date := lit "2023-07-09" |}).
  - reflexivity.
  - vm_compute. right. left. reflexivity.
Defined.

Lemma format_0d_length width n :
  length (format_0d width n) = Nat.max width (length (str_of_N n)).
Proof. unfold format_0d. rewrite length_app, repeat_length. lia. Qed.

(** What the conversion has written, [int] reads back. *)
Lemma convertible_format_0d width n :
  width <= int_max_str_digits ->
  length (str_of_N n) <= int_max_str_digits ->
  convertible (format_0d width n) n = true.
Proof.
  intros Hw Hn. unfold convertible. rewrite format_0d_length.
  apply andb_true_iff. split; apply Nat.leb_le; lia.
Qed.

Lemma convertible_length ds n :
  convertible ds n = true -> length (str_of_N n) <= int_max_str_digits.
Proof.
  unfold convertible. intros H. apply andb_true_iff in H.
  destruct H as [_ H]. now apply Nat.leb_le.
Qed.

Section DecimalText.
Context {db : UnicodeDB} {F : UnicodeFacts db}.
Local Open Scope N_scope.

Lemma decimal_ascii_digit k : k < 10 -> decimal (48 + k) = Some k.
Proof.
  intros Hk. rewrite <- (N.mod_small k 10 Hk) at 2.
  rewrite <- (N.mod_small k 10 Hk) at 1. apply decimal_digit.
Qed.

Lemma digits_value_uint_acc u : forall p,
  digits_value (N.pos p) (uint_digits u) = Some (N.pos (Pos.of_uint_acc u p)).
Proof.
  induction u; intros p; cbn [uint_digits digits_value Pos.of_uint_acc];
    try reflexivity.
  all: match goal with
       | |- context [decimal ?c] =>
           let k := eval vm_compute in (c - 48) in
           change c with (48 + k); rewrite (@decimal_ascii_digit k) by reflexivity
       end.
  all: rewrite <- IHu; f_equal; lia.
Qed.

Lemma digits_value_uint u :
  digits_value 0 (uint_digits u) = Some (N.of_uint u).
Proof.
  unfold N.of_uint.
  induction u; cbn [uint_digits digits_value Pos.of_uint]; try reflexivity.
  all: match goal with
       | |- context [decimal ?c] =>
           let k := eval vm_compute in (c - 48) in
           change c with (48 + k); rewrite (@decimal_ascii_digit k) by reflexivity
       end.
  all: cbn [N.mul N.add]; try exact IHu; apply digits_value_uint_acc.
Qed.

Lemma uint_digits_decimal u : Forall (fun c => isdecimal c = true) (uint_digits u).
Proof.
  induction u; cbn [uint_digits]; constructor; try assumption.
  all: match goal with
       | |- isdecimal ?c = true =>
           let k := eval vm_compute in (c - 48) in
           change c with (48 + k); unfold isdecimal;
           rewrite (@decimal_ascii_digit k) by reflexivity; reflexivity
       end.
Qed.

Lemma numeral_of_value ds n :
  ds <> [] -> Forall (fun c => isdecimal c = true) ds ->
  digits_value 0 ds = Some n -> numeral ds n.
Proof.
  intros Hne Hall Hv. destruct (numeral_exists Hne Hall) as [n' Hn'].
  destruct (numeral_value Hn') as (_ & _ & Hv'). congruence.
Qed.

(** [str(n)] is a numeral of [n], whatever its size. *)
Lemma numeral_str_of_any n : numeral (str_of_N n) n.
Proof.
  unfold str_of_N. apply numeral_of_value.
  - destruct n as [|p]; [discriminate|]. cbn [N.to_uint].
    pose proof (DecimalPos.Unsigned.to_uint_nonnil p) as H.
    destruct (Pos.to_uint p); [now contradiction H|discriminate..].
  - apply uint_digits_decimal.
  - rewrite digits_value_uint. f_equal. apply DecimalN.Unsigned.of_to.
Qed.

(** Zeros in front do not change the number. *)
Lemma numeral_format_0d width n : numeral (format_0d width n) n.
Proof.
  unfold format_0d. generalize (width - length (str_of_N n))%nat. intros k.
  pose proof (numeral_str_of_any n) as H.
  destruct (numeral_value H) as (Hne & Hall & Hv).
  apply numeral_of_value.
  - destruct (str_of_N n); [now contradiction Hne|]. destruct k; discriminate.
  - apply Forall_app. split; [|exact Hall].
    apply Forall_forall. intros c Hc. apply repeat_spec in Hc. subst c.
    change 48 with (48 + 0). unfold isdecimal.
    now rewrite decimal_ascii_digit by reflexivity.
  - induction k as [|k IH]; [exact Hv|].
    cbn [repeat app digits_value]. change 48 with (48 + 0).
    rewrite decimal_ascii_digit by reflexivity. exact IH.
Qed.

Lemma nodigit_hyphen : nodigit [45].
Proof.
  constructor; [|constructor]. now rewrite isdecimal_ascii by reflexivity.
Qed.

(** The Korean branch reads its own output as the same date. *)
Lemma parse_date_korean_fixed y m d :
  (length (str_of_N y) <= int_max_str_digits)%nat ->
  (length (str_of_N m) <= int_max_str_digits)%nat ->
  (length (str_of_N d) <= int_max_str_digits)%nat ->
  parse_date true (format_ymd y m d) = Some (format_ymd y m d).
Proof.
  intros Hy Hm Hd.
  rewrite (@parse_date_korean _ F _ (format_0d 4 y) (format_0d 2 m) (format_0d 2 d)
             y m d); try apply numeral_format_0d.
  - rewrite !convertible_format_0d;
      try assumption; try (unfold int_max_str_digits; lia).
    reflexivity.
  - exists [], [45], [45], []. unfold format_ymd. rewrite app_nil_r.
    split; [reflexivity|]. split; [constructor|].
    split; [discriminate|]. split; [apply nodigit_hyphen|].
    split; [discriminate|]. split; [apply nodigit_hyphen|exact I].
Qed.

End DecimalText.

(** X14. The Korean date normalisation is idempotent: it returns a
    text that it maps to itself, also when the year has more than four
    digits or the text has fewer than three numerals. *)
Theorem korean_date_normalisation_idempotent
  (db : UnicodeDB) (F : UnicodeFacts db) (text s : str) :
  parse_date true text = Some s -> parse_date true s = Some s.
Proof.
  intros H.
  destruct (@parse_date_kr_forms _ F text) as (rs & _ & Hp).
  destruct rs as [|Y [|M [|D rest]]];
    try (rewrite Hp in H; injection H as <-; exact Hp).
  destruct Hp as (y & m & d & _ & _ & _ & Hp). rewrite Hp in H.
  destruct (convertible Y y) eqn:Ey; [|discriminate].
  destruct (convertible M m) eqn:Em; [|discriminate].
  destruct (convertible D d) eqn:Ed; [|discriminate].
  injection H as <-.
  apply parse_date_korean_fixed; eapply convertible_length; eassumption.
Qed.

Lemma korean_date_normalisation_idempotent_witness :
  parse_date (db := ascii_hangul_db) true
    (lit "2023" ++ [0xB144; 32] ++ lit "7" ++ [0xC6D4; 32] ++ lit "9" ++ [0xC77C])%N
  = Some (lit "2023-07-09")
  /\ parse_date (db := ascii_hangul_db) true (lit "2023-07-09")
     = Some (lit "2023-07-09").
Proof.
  split; [reflexivity|].
  apply (@korean_date_normalisation_idempotent ascii_hangul_db ascii_hangul_facts
           (lit "2023" ++ [0xB144; 32] ++ lit "7" ++ [0xC6D4; 32] ++ lit "9" ++ [0xC77C])%N).
  reflexivity.
Defined.

Section IsoOrder.
Local Open Scope N_scope.

Lemma two_digits_value m :
  m < 100 -> 10 * ((m / 10) mod 10) + m mod 10 = m.
Proof. intros H. zify. Z.to_euclidean_division_equations. lia. Qed.

Lemma str_ltb_four_digits y y' s s' :
  y < 10000 -> y' < 10000 ->
  str_ltb (four_digits y ++ s) (four_digits y' ++ s')
  = if y <? y' then true else if y' <? y then false else str_ltb s s'.
Proof.
  intros Hy Hy'. unfold four_digits, digit.
  pose proof (four_digits_value Hy) as E. pose proof (four_digits_value Hy') as E'.
  pose proof (N.mod_upper_bound (y / 1000) 10 ltac:(lia)).
  pose proof (N.mod_upper_bound (y / 100) 10 ltac:(lia)).
  pose proof (N.mod_upper_bound (y / 10) 10 ltac:(lia)).
  pose proof (N.mod_upper_bound y 10 ltac:(lia)).
  pose proof (N.mod_upper_bound (y' / 1000) 10 ltac:(lia)).
  pose proof (N.mod_upper_bound (y' / 100) 10 ltac:(lia)).
  pose proof (N.mod_upper_bound (y' / 10) 10 ltac:(lia)).
  pose proof (N.mod_upper_bound y' 10 ltac:(lia)).
  revert E E' H H0 H1 H2 H3 H4 H5 H6.
  generalize ((y / 1000) mod 10) ((y / 100) mod 10) ((y / 10) mod 10) (y mod 10)
             ((y' / 1000) mod 10) ((y' / 100) mod 10) ((y' / 10) mod 10) (y' mod 10).
  intros a b c e a' b' c' e' E E' Ha Hb Hc He Ha' Hb' Hc' He'.
  cbn [app str_ltb].
  repeat match goal with
         | |- context [N.ltb ?u ?v] => destruct (N.ltb_spec u v)
         end; try reflexivity; exfalso; lia.
Qed.

Lemma str_ltb_two_digits m m' s s' :
  m < 100 -> m' < 100 ->
  str_ltb (two_digits m ++ s) (two_digits m' ++ s')
  = if m <? m' then true else if m' <? m then false else str_ltb s s'.
Proof.
  intros Hm Hm'. unfold two_digits, digit.
  pose proof (two_digits_value Hm) as E. pose proof (two_digits_value Hm') as E'.
  pose proof (N.mod_upper_bound (m / 10) 10 ltac:(lia)).
  pose proof (N.mod_upper_bound m 10 ltac:(lia)).
  pose proof (N.mod_upper_bound (m' / 10) 10 ltac:(lia)).
  pose proof (N.mod_upper_bound m' 10 ltac:(lia)).
  revert E E' H H0 H1 H2.
  generalize ((m / 10) mod 10) (m mod 10) ((m' / 10) mod 10) (m' mod 10).
  intros a b a' b' E E' Ha Hb Ha' Hb'.
  cbn [app str_ltb].
  repeat match goal with
         | |- context [N.ltb ?u ?v] => destruct (N.ltb_spec u v)
         end; try reflexivity; exfalso; lia.
Qed.

(** The order of ISO dates as texts is the order of the dates. *)
Lemma str_ltb_iso_date y m d y' m' d' :
  y < 10000 -> m < 100 -> d < 100 -> y' < 10000 -> m' < 100 -> d' < 100 ->
  str_ltb (iso_date y m d) (iso_date y' m' d') = true
  <-> y < y' \/ y = y' /\ (m < m' \/ m = m' /\ d < d').
Proof.
  intros Hy Hm Hd Hy' Hm' Hd'. unfold iso_date.
  rewrite str_ltb_four_digits by assumption.
  cbn [app]. cbn [str_ltb]. rewrite N.ltb_irrefl.
  rewrite str_ltb_two_digits by assumption.
  cbn [app]. cbn [str_ltb]. rewrite N.ltb_irrefl.
  rewrite <- (app_nil_r (two_digits d)), <- (app_nil_r (two_digits d')).
  rewrite str_ltb_two_digits by assumption. cbn [str_ltb].
  repeat match goal with
         | |- context [N.ltb ?a ?b] => destruct (N.ltb_spec a b)
         end; split; intros Hx; try discriminate; try reflexivity; lia.
Qed.

End IsoOrder.

Lemma sorted_later (A : Type) (R : A -> A -> Prop) l1 x l2 y l3 :
  StronglySorted R (l1 ++ x :: l2 ++ y :: l3) -> R x y.
Proof.
  induction l1 as [|a l1 IH]; cbn [app]; intros H; inversion H as [|? ? Hs Hall]; subst.
  - rewrite Forall_forall in Hall. apply Hall. apply in_elt.
  - now apply IH.
Qed.

(** X15. Among the saved rows, those with a date of the form
    [YYYY-MM-DD] stand in chronological order: the order of the texts,
    by which the rows are sorted, is the order of the dates. *)
Theorem iso_dated_rows_chronological
  (db : UnicodeDB) (is_kr : bool) (pg : page) (rows l1 l2 l3 : list row)
  (r1 r2 : row) (y m d y' m' d' : N) :
  extract_reviews is_kr pg = Some rows ->
  rows = l1 ++ r1 :: l2 ++ r2 :: l3 ->
  date r1 = iso_date y m d -> (y < 10000 /\ m < 100 /\ d < 100)%N ->
  date r2 = iso_date y' m' d' -> (y' < 10000 /\ m' < 100 /\ d' < 100)%N ->
  (y < y' \/ y = y' /\ (m < m' \/ m = m' /\ d <= d'))%N.
Proof.
  intros Hrun -> H1 (Hy & Hm & Hd) H2 (Hy' & Hm' & Hd').
  unfold extract_reviews in Hrun.
  destruct (3 <=? arrow_icons pg); [|discriminate]. injection Hrun as Hrows.
  destruct (sorted_by_date_spec (extracted is_kr (reviews pg))) as (Hs & _).
  rewrite Hrows in Hs. apply sorted_later in Hs.
  unfold date_le, str_le in Hs. rewrite H1, H2 in Hs.
  pose proof (str_ltb_iso_date Hy' Hm' Hd' Hy Hm Hd) as Hiff.
  rewrite Hs in Hiff.
  assert (Hn : ~ (y' < y \/ y' = y /\ (m' < m \/ m' = m /\ d' < d))%N).
  { intros Hc. apply Hiff in Hc. discriminate. }
  lia.
Qed.

Lemma iso_dated_rows_chronological_witness :
  exists rows r1 r2,
    extract_reviews (db := ascii_hangul_db) false sample_page = Some rows
    /\ rows = [] ++ r1 :: [] ++ r2 :: [nth 2 rows r2]
    /\ date r1 = lit "2022-03-01" /\ date r2 = lit "2023-07-09"
    /\ (2022 < 2023 \/ 2022 = 2023 /\ (3 < 7 \/ 3 = 7 /\ 1 <= 9))%N.
Proof.
  eexists. eexists. eexists.
  split; [reflexivity|]. split; [reflexivity|]. split; [reflexivity|].
  split; [reflexivity|].
  eapply (@iso_dated_rows_chronological ascii_hangul_db false sample_page _ [] [] _ _ _
            2022 3 1 2023 7 9);
    [reflexivity|reflexivity|reflexivity|repeat split|reflexivity|repeat split].
Defined.

(** ** The scraper run *)

Section ScraperRun.
Import Scraper.

Lemma run_bind_call (A B : Type) ev (o : exn + A) (k : A -> M B) t :
  bind (call ev o) k t
  = match o with
    | inl e => (inl e, t ++ [ev])
    | inr a => k a (t ++ [ev])
    end.
Proof. unfold bind, call. now destruct o. Qed.

Lemma run_bind_call_raised (A : Type) ev (o : option exn) (k : unit -> M A) t :
  bind (call ev (raised o)) k t
  = match o with
    | Some e => (inl e, t ++ [ev])
    | None => k tt (t ++ [ev])
    end.
Proof. unfold bind, call. now destruct o. Qed.

Lemma run_bind_bind (A B C : Type) (m : M A) (f : A -> M B) (g : B -> M C) t :
  bind (bind m f) g t = bind m (fun a => bind (f a) g) t.
Proof. unfold bind. destruct (m t) as [[e|a] t']; reflexivity. Qed.

Lemma run_bind_raise (A B : Type) (e : exn) (k : A -> M B) t :
  bind (raise e) k t = (inl e, t).
Proof. reflexivity. Qed.

(** The loop of tab presses: all [n] presses succeed, or the loop
    stops at the first press that raises. *)
Lemma tab_loop_spec (w : world) n : forall i t,
  (tab_loop w i n t = (inr tt, t ++ repeat SendTab n)
   /\ forall j, j < n -> send_tab w (i + j) = None)
  \/ exists k e,
       k < n /\ send_tab w (i + k) = Some e
       /\ tab_loop w i n t = (inl e, t ++ repeat SendTab (S k)).
Proof.
  induction n as [|n IH]; intros i t.
  - left. cbn. rewrite app_nil_r. split; [reflexivity|]. intros j Hj. lia.
  - cbn [tab_loop]. rewrite run_bind_call_raised.
    destruct (send_tab w i) as [e|] eqn:Hi.
    + right. exists 0, e. rewrite Nat.add_0_r. split; [lia|].
      split; [exact Hi|reflexivity].
    + destruct (IH (S i) (t ++ [SendTab])) as [[Hrun Hall]|(k & e & Hk & He & Hrun)].
      * left. rewrite Hrun. rewrite <- app_assoc. split; [reflexivity|].
        intros [|j] Hj; [now rewrite Nat.add_0_r|].
        replace (i + S j) with (S i + j) by lia. apply Hall. lia.
      * right. exists (S k), e. split; [lia|]. split.
        -- now replace (i + S k) with (S i + k) by lia.
        -- rewrite Hrun. now rewrite <- app_assoc.
Qed.

Lemma run_bind_tab_loop (A : Type) (w : world) n (k : unit -> M A) t :
  (bind (tab_loop w 0 n) k t = k tt (t ++ repeat SendTab n)
   /\ forall j, j < n -> send_tab w j = None)
  \/ exists j e,
       j < n /\ send_tab w j = Some e
       /\ bind (tab_loop w 0 n) k t = (inl e, t ++ repeat SendTab (S j)).
Proof.
  unfold bind.
  destruct (tab_loop_spec w n 0 t) as [[-> Hall]|(j & e & Hj & He & ->)].
  - left. split; [reflexivity|exact Hall].
  - right. exists j, e. repeat split; assumption.
Qed.

Lemma filter_dialog_tabs n : filter is_dialog (repeat SendTab n) = [].
Proof. induction n; [reflexivity|exact IHn]. Qed.

(** One step of a run: the next call is made and its outcome is
    split into the exception and the normal return. *)
Ltac run_step :=
  cbv beta zeta;
  match goal with
  | |- context [bind (call ?ev (raised ?o)) ?k ?t] =>
      rewrite (run_bind_call_raised ev o k t); destruct o as [?e|] eqn:?
  | |- context [bind (call ?ev ?o) ?k ?t] =>
      rewrite (run_bind_call ev o k t); destruct o as [?e|?a] eqn:?
  | |- context [bind (bind ?m ?f) ?g ?t] => rewrite (run_bind_bind m f g t)
  | |- context [bind (raise ?e) ?k ?t] => rewrite (run_bind_raise e k t)
  | |- context [bind (if ?b then _ else _) _ _] => destruct b eqn:?
  | |- context [bind (tab_loop ?w 0 ?n) ?k ?t] =>
      let Hall := fresh "Hall" in
      destruct (run_bind_tab_loop w n k t) as [[-> Hall]|(?j & ?e & ?Hj & ?He & ->)]
  end.

(** All the runs of [extract_reviews], each with its trace. *)
Ltac run_cases :=
  unfold extract_reviews, finally, message_box;
  repeat run_step;
  unfold call;
  match goal with
  | |- context [raised (driver_quit ?w)] => destruct (driver_quit w) as [?e|] eqn:?
  | _ => idtac
  end;
  cbn [raised fst snd]; rewrite <- ?app_assoc; cbn [app].

(** The trace [l] without the call that closes the browser. *)
Ltac strip_last l :=
  lazymatch l with
  | [DriverQuit] => constr:(@nil event)
  | ?x :: ?l' => let r := strip_last l' in constr:(x :: r)
  | ?a ++ ?b => let r := strip_last b in constr:(a ++ r)
  end.

Ltac in_cases H :=
  cbn [In] in H;
  repeat match goal with
         | H : _ \/ _ |- _ => destruct H as [H|H]
         | H : In _ (_ ++ _) |- _ => apply in_app_or in H; cbn [In] in H
         | H : In _ (repeat _ _) |- _ => apply repeat_spec in H
         end; try discriminate; try contradiction.

Ltac not_in := let H := fresh in intros H; in_cases H.

Lemma extract_reviews_starts (db : UnicodeDB) (w : world) link is_kr tab_count out :
  exists r rest,
    extract_reviews w link is_kr tab_count out [] = (r, StartChrome :: rest).
Proof. run_cases; do 2 eexists; reflexivity. Qed.

Lemma select_output_files_spec choices : forall win t,
  exists t',
    select_output_files choices win t
    = (inr {| link_input := link_input win; kr_checked := kr_checked win;
              tab_input := tab_input win;
              output_file := last (map Some choices) (output_file win) |}, t').
Proof.
  induction choices as [|c cs IH]; intros win t.
  - exists t. now destruct win.
  - cbn [select_output_files]. unfold bind.
    assert (Hsel : exists t1,
      select_output_file c win t
      = (inr {| link_input := link_input win; kr_checked := kr_checked win;
                tab_input := tab_input win; output_file := Some c |}, t1)).
    { unfold select_output_file. destruct c; eexists; reflexivity. }
    destruct Hsel as (t1 & ->).
    destruct (IH {| link_input := link_input win; kr_checked := kr_checked win;
                    tab_input := tab_input win; output_file := Some c |} t1)
      as (t' & ->).
    exists t'. cbn [link_input kr_checked tab_input output_file].
    do 2 f_equal. f_equal. cbn [map].
    destruct cs as [|c' cs']; [reflexivity|]. cbn [map].
    remember (Some c' :: map Some cs') as l eqn:Hl.
    cbn [last]. destruct l; [discriminate|].
    clear. revert o. induction l as [|x l IHl]; intros o; [reflexivity|].
    cbn [last] in *. apply IHl.
Qed.

(** X16. Whenever [extract_reviews] has started the browser it closes
    it: the call of [driver.quit()] is the last call of the run and
    the only one, whichever step raised; when the browser does not
    start, nothing else is called. *)
Theorem browser_quit_exactly_once
  (db : UnicodeDB) (w : world) (link : str) (is_kr : bool) (tab_count : nat)
  (out : str) :
  let run := extract_reviews w link is_kr tab_count out [] in
  match chrome_start w with
  | Some e => run = (inl e, [StartChrome])
  | None =>
      exists calls,
        snd run = StartChrome :: calls ++ [DriverQuit]
        /\ ~ In DriverQuit calls /\ ~ In StartChrome calls
  end.
Proof.
  cbv zeta. run_cases; try reflexivity;
  match goal with
  | |- exists _, StartChrome :: ?l = _ /\ _ =>
      let c := strip_last l in
      exists c; split; [cbn [app]; rewrite <- ?app_assoc; reflexivity|split; not_in]
  end.
Qed.

(** X17. The run writes records to the output file exactly when the
    page has loaded, the three navigation icons are there and the file
    has opened; the records are then the header and the rows that
    [extract_reviews] computes from the elements of the page. *)
Theorem records_written_iff_page_read
  (db : UnicodeDB) (w : world) (link : str) (is_kr : bool) (tab_count : nat)
  (out : str) (recs : list (list str)) :
  In (WriteRecords recs) (snd (extract_reviews w link is_kr tab_count out []))
  <-> exists pg rows,
        page_loaded w tab_count pg /\ open_output w = None
        /\ Crawler.extract_reviews is_kr pg = Some rows
        /\ recs = csv_file rows.
Proof.
  unfold page_loaded, Crawler.extract_reviews.
  run_cases.
  all: split;
    [ intros H; in_cases H
    | intros (pg & rows & (H1 & H2 & H3 & H4 & H5 & H6 & H7 & H8) & H9 & H10 & ->);
      try discriminate ].
  all: try match goal with
           | H : WriteRecords _ = WriteRecords _ |- _ =>
               injection H as <-;
               match goal with
               | Ha : wait_arrows _ = inr ?a, Hr : find_reviews _ = inr ?rs |- _ =>
                   exists {| arrow_icons := a; reviews := rs |};
                   eexists; cbn [arrow_icons reviews];
                   match goal with Hb : (3 <=? a) = true |- _ => rewrite Hb end;
                   repeat split; assumption
               end
           end.
  all: injection H3 as H3; rewrite <- H3 in H10.
  all: match goal with
       | Hb : (3 <=? ?a) = _ |- _ => rewrite Hb in H10
       end; try discriminate.
  all: try match goal with
           | Hj : ?j < _, He : send_tab _ ?j = Some _ |- _ =>
               rewrite (H7 j Hj) in He; discriminate
           end.
  all: injection H8 as H8; rewrite <- H8 in H10; injection H10 as <-.
  all: do 6 right; apply in_or_app; right; cbn [In]; auto.
Qed.

(** X18. The dialog "Success" is shown exactly when the rows have been
    saved, that is, when the records were also written without an
    error; the number it reports is the number of rows in the file. *)
Theorem success_dialog_iff_saved
  (db : UnicodeDB) (w : world) (link : str) (is_kr : bool) (tab_count : nat)
  (out text : str) :
  In (MessageBox Information (lit "Success") text)
     (snd (extract_reviews w link is_kr tab_count out []))
  <-> exists rows, saves w is_kr tab_count rows
                   /\ text = saved_text (length rows) out.
Proof.
  unfold saves, page_loaded, Crawler.extract_reviews.
  run_cases.
  all: split;
    [ intros H; in_cases H
    | intros (rows & (pg & (H1 & H2 & H3 & H4 & H5 & H6 & H7 & H8) & H9 & H10 & H11) & ->);
      try discriminate ].
  all: try match goal with
           | H : MessageBox _ _ _ = MessageBox _ _ _ |- _ =>
               injection H as <-;
               match goal with
               | Ha : wait_arrows _ = inr ?a, Hr : find_reviews _ = inr ?rs |- _ =>
                   eexists; split; [|reflexivity];
                   exists {| arrow_icons := a; reviews := rs |};
                   cbn [arrow_icons reviews];
                   match goal with Hb : (3 <=? a) = true |- _ => rewrite Hb end;
                   repeat split; assumption
               end
           end.
  all: injection H3 as H3; rewrite <- H3 in H10.
  all: match goal with
       | Hb : (3 <=? ?a) = _ |- _ => rewrite Hb in H10
       end; try discriminate.
  all: try match goal with
           | Hj : ?j < _, He : send_tab _ ?j = Some _ |- _ =>
               rewrite (H7 j Hj) in He; discriminate
           end.
  all: injection H8 as H8; rewrite <- H8 in H10; injection H10 as <-.
  all: try congruence.
  all: do 6 right; apply in_or_app; right; cbn [In]; auto.
Qed.

(** X19. [run_scraper] never raises and never ends without a dialog.
    Without a link or an output file it shows the warning and calls
    nothing else.  Otherwise it starts the browser and shows the
    success dialog, or one error dialog, or both: the error after the
    success only when closing the browser is what failed. *)
Theorem run_scraper_feedback (db : UnicodeDB) (w : world) (win : window) :
  let out := run_scraper w win [] in
  let dialogs := filter is_dialog (snd out) in
  fst out = inr tt
  /\ match link_input win, output_file win with
     | _ :: _, Some ((_ :: _) as f) =>
         In StartChrome (snd out)
         /\ ((exists n, dialogs = [success_dialog n f])
             \/ (exists e, dialogs = [error_dialog e])
             \/ (exists n e, dialogs = [success_dialog n f; error_dialog e]
                             /\ driver_quit w = Some e))
     | _, _ => snd out = [missing_inputs_dialog]
     end.
Proof.
  cbv zeta. unfold run_scraper.
  destruct (link_input win) as [|c link]; [split; reflexivity|].
  destruct (output_file win) as [[|c' f]|]; [split; reflexivity| |split; reflexivity].
  run_cases.
  all: cbn [fst snd app]; rewrite <- ?app_assoc; cbn [app].
  all: split; [reflexivity|]; split; [now left|].
  all: cbn [filter is_dialog];
    rewrite ?filter_app, ?filter_dialog_tabs; cbn [filter is_dialog app].
  all: first [ left; eexists; reflexivity
             | right; left; eexists; reflexivity
             | right; right; do 2 eexists; split; reflexivity ].
Qed.

(** X20. Only the last answer of the file dialog counts: after any
    number of choices, a run starts the browser exactly when the link
    is not empty and the last dialog was not cancelled, whatever file
    an earlier dialog had chosen. *)
Theorem last_file_choice_decides
  (db : UnicodeDB) (w : world) (choices : list str) (chosen : str)
  (win : window) (t : list event) :
  exists win' t',
    select_output_files (choices ++ [chosen]) win t = (inr win', t')
    /\ output_file win' = Some chosen
    /\ (In StartChrome (snd (run_scraper w win' []))
        <-> link_input win <> [] /\ chosen <> []).
Proof.
  destruct (select_output_files_spec (choices ++ [chosen]) win t) as (t' & Hrun).
  eexists. exists t'. split; [exact Hrun|].
  unfold run_scraper. cbn [link_input kr_checked tab_input output_file].
  rewrite map_app. cbn [map]. rewrite last_last. split; [reflexivity|].
  destruct (link_input win) as [|c link].
  { split; [intros H; cbn in H; in_cases H|intros [H _]; now contradiction H]. }
  destruct chosen as [|c' f].
  { split; [intros H; cbn in H; in_cases H|intros [_ H]; now contradiction H]. }
  destruct (extract_reviews_starts db w (c :: link) (kr_checked win)
              (tab_input win) (c' :: f)) as (r & rest & ->).
  split; [intros _; split; discriminate|intros _].
  destruct r; cbn; now left.
Qed.

(** The tab count of a fresh window: the value 1000 is set while the
    box still has its first maximum, and raising the maximum afterwards
    does not bring it back. *)
Example fresh_window_tab_count : tab_input fresh_window = 99.
Proof. reflexivity. Qed.

End ScraperRun.

(** ** Runs on concrete texts *)

Section Examples.
#[local] Existing Instance ascii_hangul_db.

(** The label of a Korean page: five stars at most, four given. *)
Example rating_korean_label :
  parse_rating true
    ([0xBCC4; 0xD45C; 32] ++ lit "5" ++ [0xAC1C; 32; 0xB9CC; 0xC810; 0xC5D0; 32]
     ++ lit "4" ++ [0xAC1C; 0xB97C; 32; 0xBC1B; 0xC558; 0xC2B5; 0xB2C8; 0xB2E4; 46])%N
  = Some (Some 4%N).
Proof. reflexivity. Qed.

Example rating_absent : parse_rating false (lit "no stars here") = Some None.
Proof. reflexivity. Qed.

(** [int] reads a numeral of 4300 digits and refuses one of 4301. *)
Example rating_numeral_length :
  parse_rating false (lit "Rated " ++ repeat 48%N 4299 ++ lit "5 stars")
  = Some (Some 5%N)
  /\ parse_rating false (lit "Rated " ++ repeat 48%N 4300 ++ lit "5 stars")
     = None.
Proof. split; vm_compute; reflexivity. Qed.

(** [strptime] is indifferent to case, white space and a padded day,
    and refuses trailing text, a missing space and a day the month
    does not have. *)
Example date_english_variants :
  parse_date false (lit "july  09, 2023") = Some (lit "2023-07-09")
  /\ parse_date false (lit "July 9, 2023 ") = None
  /\ parse_date false (lit "July 9,2023") = None
  /\ parse_date false (lit "February 30, 2023") = None
  /\ parse_date false (lit "February 29, 2024") = Some (lit "2024-02-29").
Proof. repeat split; reflexivity. Qed.

(** Before the year 1000 [strftime] prints fewer than four digits. *)
Example date_english_early_year :
  parse_date false (lit "July 9, 0999") = Some (lit "999-07-09")
  /\ parse_date false (lit "July 9, 1000") = Some (lit "1000-07-09").
Proof. split; reflexivity. Qed.

(** The width of a format field is a minimum. *)
Example date_korean_five_digit_year :
  parse_date true (lit "12345. 7. 9.") = Some (lit "12345-07-09").
Proof. reflexivity. Qed.

Example normalize_english :
  normalize_text default_language (CStr (lit "  Great_app!!  #1 (really) ")) =
  lit "Great_app!! 1 really".
Proof. reflexivity. Qed.

Example normalize_number_cell :
  normalize_text default_language (CInt (-42)) = lit "42"
  /\ normalize_text default_language (CFloat (FFinite 7 0)) = [].
Proof. split; reflexivity. Qed.

(** A response without choices is answered with the fixed text, and
    the run goes on with it as a chunk report. *)
Example no_choices_run :
  response_of (constant_server 200 (JDict [])) [] (lit "p") = inr (JStr no_content)
  /\ response_of (constant_server 503 sample_completion) [] (lit "p")
     = inl (request_failed
              (lit "503 Server Error: OK for url: http://127.0.0.1:1234/v1/completions"))
  /\ response_of (constant_server 302 sample_completion) [] (lit "p")
     = inr (JStr (lit "fine")).
Proof. repeat split; reflexivity. Qed.

End Examples.
